(** * Verification of the download-page controller [static/app.js]

    The development embeds the logic of [static/app.js] as Rocq functions and
    proves properties of them:
    - [JSNumber]: the fragment of JavaScript numbers the script uses
      (comparison, [Math.min]/[Math.max], division, [toFixed], [ToString]);
    - [JSString]: the string helpers the script calls;
    - [URL]: a model of the platform [URL] parser on the inputs it covers;
    - [cleanYouTubeUrl], [updateProgress], [formatSubs]: the pure functions;
    - [App]: the event handlers as transitions of one global state. *)

From Stdlib Require Import ZArith QArith Qabs Qround Bool List Lia Lqa.
From Stdlib Require Import Strings.Ascii Strings.String Numbers.DecimalString.
Import ListNotations.

Local Open Scope string_scope.
Local Open Scope Z_scope.

(* ================================================================== *)
(** ** JavaScript numbers *)
(* ================================================================== *)

Module JSNumber.

(** A JavaScript number: IEEE-754 binary64.  A finite value is carried as
    the exact rational it denotes; the sign of zero is not represented
    (no code of the script can observe it). *)
Inductive number : Type :=
| NaN
| PInf
| NInf
| Fin (q : Q).

Definition of_Z (z : Z) : number := Fin (inject_Z z).

Definition neg (a : number) : number :=
  match a with
  | NaN => NaN
  | PInf => NInf
  | NInf => PInf
  | Fin q => Fin (Qopp q)
  end.

(** [a < b] of JavaScript: false as soon as one side is NaN. *)
Definition lt (a b : number) : bool :=
  match a, b with
  | NaN, _ | _, NaN => false
  | PInf, _ => false
  | _, NInf => false
  | NInf, _ => true
  | _, PInf => true
  | Fin x, Fin y => negb (Qle_bool y x)
  end.

(** [a >= b] of JavaScript (not the negation of [<]: NaN fails both). *)
Definition ge (a b : number) : bool :=
  match a, b with
  | NaN, _ | _, NaN => false
  | PInf, _ => true
  | _, NInf => true
  | NInf, _ => false
  | _, PInf => false
  | Fin x, Fin y => Qle_bool y x
  end.

Definition gt (a b : number) : bool := lt b a.
Definition le (a b : number) : bool := ge b a.

(** [Math.min(a, b)] and [Math.max(a, b)]: NaN is contagious. *)
Definition Math_min (a b : number) : number :=
  match a, b with
  | NaN, _ | _, NaN => NaN
  | _, _ => if lt b a then b else a
  end.

Definition Math_max (a b : number) : number :=
  match a, b with
  | NaN, _ | _, NaN => NaN
  | _, _ => if lt a b then b else a
  end.

(** Truthiness of a number: [0] and NaN are falsy. *)
Definition truthy (a : number) : bool :=
  match a with
  | NaN => false
  | Fin q => negb (Qeq_bool q 0%Q)
  | _ => true
  end.

(** *** Rounding to binary64 *)

Definition pow2 (e : Z) : Q :=
  if 0 <=? e then inject_Z (Z.shiftl 1 e) else Qmake 1 (Z.to_pos (Z.shiftl 1 (- e))).

Definition pow10 (e : Z) : Q :=
  if 0 <=? e then inject_Z (10 ^ e) else Qmake 1 (Z.to_pos (10 ^ (- e))).

(** [ilog2 q] is the integer [e] with [2^e <= q < 2^(e+1)], for [q > 0]. *)
Definition ilog2 (q : Q) : Z :=
  let e0 := Z.log2 (Qnum q) - Z.log2 (Zpos (Qden q)) in
  if Qle_bool (pow2 e0) q then e0 else e0 - 1.

(** Nearest integer, ties to the even one. *)
Definition round_half_even (q : Q) : Z :=
  let f := Qfloor q in
  match Qcompare (q - inject_Z f)%Q (1 # 2)%Q with
  | Lt => f
  | Gt => f + 1
  | Eq => if Z.even f then f else f + 1
  end.

(** The binary64 value nearest to a positive rational: 53 significant bits
    above the subnormal range, a fixed exponent of -1074 inside it, and
    overflow to Infinity from 2^1024. *)
Definition round64_pos (q : Q) : number :=
  let e := Z.max (ilog2 q) (-1022) in
  let m := round_half_even (q * pow2 (52 - e))%Q in
  let v := (inject_Z m * pow2 (e - 52))%Q in
  if Qle_bool (pow2 1024) v then PInf else Fin (Qred v).

Definition round64 (q : Q) : number :=
  match Qcompare q 0%Q with
  | Eq => Fin 0%Q
  | Gt => round64_pos q
  | Lt => neg (round64_pos (Qopp q))
  end.

(** [a / b] of JavaScript.  A zero divisor is read as [+0]. *)
Definition div (a b : number) : number :=
  match a, b with
  | NaN, _ | _, NaN => NaN
  | Fin x, Fin y =>
      if Qeq_bool y 0%Q then
        match Qcompare x 0%Q with Eq => NaN | Gt => PInf | Lt => NInf end
      else round64 (x / y)%Q
  | Fin _, _ => Fin 0%Q
  | PInf, Fin y => if Qle_bool 0%Q y then PInf else NInf
  | NInf, Fin y => if Qle_bool 0%Q y then NInf else PInf
  | _, _ => NaN
  end.

(** *** Decimal digits *)

Definition digit_char (d : Z) : ascii :=
  ascii_of_nat (48 + Z.to_nat d).

Fixpoint digits_fuel (fuel : nat) (n : Z) (acc : string) : string :=
  match fuel with
  | O => acc
  | S f =>
      let acc' := String (digit_char (n mod 10)) acc in
      if n <? 10 then acc' else digits_fuel f (n / 10) acc'
  end.

(** The decimal digits of a natural number, ["0"] for zero. *)
Definition digits (n : Z) : string :=
  digits_fuel (S (Z.to_nat (Z.log2 n))) n "".

Fixpoint zeros (n : nat) : string :=
  match n with
  | O => ""
  | S k => String "0" (zeros k)
  end.

Fixpoint take (n : nat) (s : string) : string :=
  match n, s with
  | S k, String c r => String c (take k r)
  | _, _ => ""
  end.

Fixpoint drop (n : nat) (s : string) : string :=
  match n, s with
  | S k, String _ r => drop k r
  | _, _ => s
  end.

(** *** Number::toString *)

Fixpoint adjust_up (fuel : nat) (q : Q) (n : Z) : Z :=
  match fuel with
  | O => n
  | S f => if Qle_bool (pow10 n) q then adjust_up f q (n + 1) else n
  end.

Fixpoint adjust_down (fuel : nat) (q : Q) (n : Z) : Z :=
  match fuel with
  | O => n
  | S f => if Qle_bool (pow10 (n - 1)) q then n else adjust_down f q (n - 1)
  end.

(** [dec_exp q] is the integer [n] with [10^(n-1) <= q < 10^n], for [q > 0]. *)
Definition dec_exp (q : Q) : Z :=
  adjust_down 8 q (adjust_up 8 q ((ilog2 q * 30103) / 100000)).

Definition rounds_to (v x : Q) : bool :=
  match round64 v with
  | Fin y => Qeq_bool y x
  | _ => false
  end.

(** The [k]-digit integer [s] for which [s * 10^(n-k)] is read back as [x],
    the nearest to [x] if both neighbours qualify (the even one in a tie). *)
Definition candidate (x : Q) (n k : Z) : option Z :=
  let scaled := (x * pow10 (k - n))%Q in
  let lo := Qfloor scaled in
  let hi := lo + 1 in
  let ok s := rounds_to (inject_Z s * pow10 (n - k))%Q x in
  match ok lo, ok hi with
  | true, true =>
      match Qcompare (scaled - inject_Z lo)%Q (inject_Z hi - scaled)%Q with
      | Lt => Some lo
      | Gt => Some hi
      | Eq => Some (if Z.even lo then lo else hi)
      end
  | true, false => Some lo
  | false, true => Some hi
  | false, false => None
  end.

(** The least [k] with a candidate, searched upward; 17 digits identify
    every binary64 value. *)
Fixpoint shortest (fuel : nat) (x : Q) (n k : Z) : Z * Z :=
  match fuel with
  | O => (Qfloor (x * pow10 (k - n))%Q, k)
  | S f =>
      match candidate x n k with
      | Some s => (s, k)
      | None => shortest f x n (k + 1)
      end
  end.

Definition exponent_part (n : Z) : string :=
  let e := n - 1 in
  String "e" (if e <? 0 then String "-" (digits (- e)) else String "+" (digits e)).

(** Number::toString of a positive finite value. *)
Definition toString_pos (x : Q) : string :=
  let n0 := dec_exp x in
  let '(s0, k) := shortest 16 x n0 1 in
  let '(s, n) := if s0 =? 10 ^ k then (10 ^ (k - 1), n0 + 1) else (s0, n0) in
  let ds := digits s in
  if (k <=? n) && (n <=? 21) then ds ++ zeros (Z.to_nat (n - k))
  else if (0 <? n) && (n <=? 21) then
    take (Z.to_nat n) ds ++ "." ++ drop (Z.to_nat n) ds
  else if (-6 <? n) && (n <=? 0) then "0." ++ zeros (Z.to_nat (- n)) ++ ds
  else if k =? 1 then ds ++ exponent_part n
  else take 1 ds ++ "." ++ drop 1 ds ++ exponent_part n.

(** [String(x)], which is also what [x + 's'] and a template literal use. *)
Definition toString (x : number) : string :=
  match x with
  | NaN => "NaN"
  | PInf => "Infinity"
  | NInf => "-Infinity"
  | Fin q =>
      match Qcompare q 0%Q with
      | Eq => "0"
      | Gt => toString_pos q
      | Lt => "-" ++ toString_pos (Qopp q)
      end
  end.

(** *** Number.prototype.toFixed *)

(** [x.toFixed(f)] for [0 <= f <= 100]. *)
Definition toFixed (x : number) (f : nat) : string :=
  match x with
  | Fin q =>
      let sign := if negb (Qle_bool 0%Q q) then "-" else "" in
      let a := Qabs q in
      if Qle_bool (pow10 21) a then toString x
      else
        let n := Qfloor (a * pow10 (Z.of_nat f) + (1 # 2))%Q in
        let m := digits n in
        let m :=
          match f with
          | O => m
          | S _ =>
              let m := zeros (S f - String.length m)%nat ++ m in
              let k := String.length m in
              take (k - f)%nat m ++ "." ++ drop (k - f)%nat m
          end in
        sign ++ m
  | _ => toString x
  end.

End JSNumber.
Export JSNumber.

(* ================================================================== *)
(** ** JavaScript strings *)
(* ================================================================== *)

(** Strings are sequences of bytes; the model follows the script on ASCII
    text (a character outside ASCII is carried as its UTF-8 bytes and left
    alone by the case conversions). *)
Module JSString.

Definition code (c : ascii) : N := N_of_ascii c.

Definition in_range (lo hi : N) (c : ascii) : bool :=
  ((lo <=? code c) && (code c <=? hi))%N.

Definition is_upper : ascii -> bool := in_range 65 90.
Definition is_lower : ascii -> bool := in_range 97 122.
Definition is_digit : ascii -> bool := in_range 48 57.
Definition is_alpha (c : ascii) : bool := is_upper c || is_lower c.
Definition is_alnum (c : ascii) : bool := is_alpha c || is_digit c.

Definition lower_char (c : ascii) : ascii :=
  if is_upper c then ascii_of_N (code c + 32) else c.

Definition upper_char (c : ascii) : ascii :=
  if is_lower c then ascii_of_N (code c - 32) else c.

Fixpoint map_chars (f : ascii -> ascii) (s : string) : string :=
  match s with
  | EmptyString => EmptyString
  | String c r => String (f c) (map_chars f r)
  end.

Definition toLowerCase : string -> string := map_chars lower_char.
Definition toUpperCase : string -> string := map_chars upper_char.

Fixpoint all_chars (p : ascii -> bool) (s : string) : bool :=
  match s with
  | EmptyString => true
  | String c r => p c && all_chars p r
  end.

(** A string is falsy exactly when it is empty. *)
Definition is_empty (s : string) : bool :=
  match s with
  | EmptyString => true
  | _ => false
  end.

(** [s.startsWith(p)]. *)
Fixpoint startsWith (p s : string) : bool :=
  match p, s with
  | EmptyString, _ => true
  | String a p', String b s' => Ascii.eqb a b && startsWith p' s'
  | _, EmptyString => false
  end.

(** [s.includes(p)]. *)
Fixpoint includes (p s : string) : bool :=
  startsWith p s ||
  match s with
  | EmptyString => false
  | String _ r => includes p r
  end.

(** [s.endsWith(p)]. *)
Fixpoint endsWith (p s : string) : bool :=
  String.eqb p s ||
  match s with
  | EmptyString => false
  | String _ r => endsWith p r
  end.

(** The longest prefix of characters satisfying [p], and the rest. *)
Fixpoint span (p : ascii -> bool) (s : string) : string * string :=
  match s with
  | EmptyString => (EmptyString, EmptyString)
  | String c r =>
      if p c then let '(a, b) := span p r in (String c a, b)
      else (EmptyString, s)
  end.

Fixpoint drop_while (p : ascii -> bool) (s : string) : string :=
  match s with
  | EmptyString => EmptyString
  | String c r => if p c then drop_while p r else s
  end.

(** [s.split(sep)] for a separator class: the pieces between separators,
    one piece more than there are separators. *)
Fixpoint split_on (sep : ascii -> bool) (s : string) : list string :=
  match s with
  | EmptyString => [EmptyString]
  | String c r =>
      if sep c then EmptyString :: split_on sep r
      else
        match split_on sep r with
        | [] => [String c EmptyString]
        | x :: xs => String c x :: xs
        end
  end.

Definition is_char (a : ascii) (c : ascii) : bool := Ascii.eqb a c.

(** [s.split('/')]. *)
Definition split (sep : ascii) (s : string) : list string :=
  split_on (is_char sep) s.

(** [a.indexOf(x)] on an array of strings, [None] for -1. *)
Fixpoint indexOf (x : string) (l : list string) : option nat :=
  match l with
  | [] => None
  | y :: r =>
      if String.eqb y x then Some O
      else match indexOf x r with
           | Some i => Some (S i)
           | None => None
           end
  end.

Fixpoint rev_string (s acc : string) : string :=
  match s with
  | EmptyString => acc
  | String c r => rev_string r (String c acc)
  end.

(** White space of [String.prototype.trim] inside ASCII. *)
Definition is_space (c : ascii) : bool :=
  in_range 9 13 c || is_char " " c.

Definition trim_with (p : ascii -> bool) (s : string) : string :=
  rev_string (drop_while p (rev_string (drop_while p s) "")) "".

(** [s.trim()]. *)
Definition trim : string -> string := trim_with is_space.

(** [s.replace(/\.0$/, '')]. *)
Fixpoint strip_dot_zero (s : string) : string :=
  match s with
  | EmptyString => EmptyString
  | String c r => if String.eqb s ".0" then EmptyString else String c (strip_dot_zero r)
  end.

(** [s.replace(/^\/+/, '')]. *)
Definition strip_leading_slashes : string -> string :=
  drop_while (is_char "/").

(** [a || b] on strings that may be absent. *)
Definition or_else (a : option string) (b : string) : string :=
  match a with
  | Some s => if is_empty s then b else s
  | None => b
  end.

(** [!a] on a string that may be absent. *)
Definition falsy (a : option string) : bool :=
  match a with
  | Some s => is_empty s
  | None => true
  end.

End JSString.
Export JSString.

(* ================================================================== *)
(** ** The progress payload and its rendering *)
(* ================================================================== *)

(** The JSON object answered by [/api/progress/<id>], its members typed as
    the backend sends them (text, or a number for [progress] and [eta]);
    an absent or [null] member is [None]. *)
Record payload : Type := {
  p_ok : bool;
  p_status : option string;
  p_progress : option number;
  p_downloaded : option string;
  p_total : option string;
  p_speed : option string;
  p_eta : option number;
  p_started_at_ist : option string;
  p_expires_at_ist : option string;
  p_filename : option string;
  p_download_url : option string;
  p_error : option string
}.

(** What [updateProgress] writes into the page. *)
Record progress_view : Type := {
  bar_width : string;
  bar_text : string;
  status_badge : string;
  downloaded_text : string;
  total_text : string;
  speed_text : string;
  eta_text : string
}.

(** [Number(d.progress || 0)], line 333. *)
Definition raw_percent (d : payload) : number :=
  match p_progress d with
  | Some x => if truthy x then x else of_Z 0
  | None => of_Z 0
  end.

(** [pct] after lines 334 and 335. *)
Definition mapped_percent (d : payload) : number :=
  let pct := raw_percent d in
  let pct :=
    if String.eqb (or_else (p_status d) "") "processing" && lt pct (of_Z 99)
    then of_Z 99 else pct in
  Math_max (of_Z 0) (Math_min (of_Z 100) pct).

(** The em dash the script uses as a blank, as UTF-8. *)
Definition em_dash : string :=
  String (ascii_of_nat 226) (String (ascii_of_nat 128) (String (ascii_of_nat 148) "")).

(** [displayStatus], lines 339-344. *)
Definition displayStatus (s : option string) : string :=
  match s with
  | None => em_dash
  | Some s =>
      if is_empty s then em_dash
      else
        let s := toLowerCase s in
        if String.eqb s "processing" then "downloading" else s
  end.

(** [updateProgress(d)], lines 332-351. *)
Definition updateProgress (d : payload) : progress_view :=
  let pct := mapped_percent d in
  {| bar_width := toString pct ++ "%";
     bar_text := toFixed pct 0 ++ "%";
     status_badge := toUpperCase (displayStatus (p_status d));
     downloaded_text := or_else (p_downloaded d) "0 B";
     total_text := or_else (p_total d) "?";
     speed_text := or_else (p_speed d) "-";
     eta_text :=
       match p_eta d with
       | Some e => toString e ++ "s"
       | None => "-"
       end |}.

(* ================================================================== *)
(** ** Subscriber counts *)
(* ================================================================== *)

(** [units], line 367. *)
Definition units : list (string * Z) :=
  [("B", 1); ("K", 10 ^ 3); ("M", 10 ^ 6); ("B", 10 ^ 9)].

(** The loop of lines 368-373, over the units from the last to the first. *)
Fixpoint formatSubs_loop (n : number) (us : list (string * Z)) : option string :=
  match us with
  | [] => None
  | (letter, size) :: rest =>
      if ge n (of_Z size) then
        let fd := if ge n (of_Z 100000) then 0%nat else 1%nat in
        let val := strip_dot_zero (toFixed (div n (of_Z size)) fd) in
        Some (val ++ letter ++ " subscribers")
      else formatSubs_loop n rest
  end.

(** [formatSubs(n)], lines 365-375, on a number. *)
Definition formatSubs (n : number) : string :=
  match formatSubs_loop n (rev units) with
  | Some s => s
  | None => toString n ++ " subscribers"
  end.

(* ================================================================== *)
(** ** The platform URL parser *)
(* ================================================================== *)

(** [new URL(raw)] of the URL Standard, without a base URL, on the inputs
    the model covers: ASCII text with one of the schemes http, https, ws,
    wss and ftp, and a host that is a domain name.  For anything else
    (other schemes, IPv4 and IPv6 literals, internationalised or punycode
    labels, escapes of bytes outside ASCII) the answer is [Unmodelled]:
    nothing is asserted about such an input. *)
Module URL.

Record url : Type := {
  hostname : string;
  pathname : string;
  query : string      (* without the leading question mark *)
}.

Inductive outcome : Type :=
| Parsed (u : url)
| TypeError
| Unmodelled.

Definition is_ascii (c : ascii) : bool := (code c <? 128)%N.

Definition one_of (l : string) (c : ascii) : bool :=
  existsb (Ascii.eqb c) (list_ascii_of_string l).

Definition is_c0_or_space (c : ascii) : bool := (code c <=? 32)%N.
Definition is_tab_or_newline (c : ascii) : bool :=
  (code c =? 9)%N || (code c =? 10)%N || (code c =? 13)%N.

Fixpoint remove_chars (p : ascii -> bool) (s : string) : string :=
  match s with
  | EmptyString => EmptyString
  | String c r => if p c then remove_chars p r else String c (remove_chars p r)
  end.

(** Step 1 of the basic URL parser: strip leading and trailing C0 control
    or space, then remove every tab and newline. *)
Definition preprocess (s : string) : string :=
  remove_chars is_tab_or_newline (trim_with is_c0_or_space s).

Definition is_scheme_char (c : ascii) : bool :=
  is_alnum c || one_of "+-." c.

(** Scheme start state and scheme state. *)
Definition scan_scheme (s : string) : option (string * string) :=
  match s with
  | String c _ =>
      if is_alpha c then
        match span is_scheme_char s with
        | (sch, String ":" rest) => Some (toLowerCase sch, rest)
        | _ => None
        end
      else None
  | EmptyString => None
  end.

Definition special_schemes : list string := ["http"; "https"; "ws"; "wss"; "ftp"].

Definition is_slash (c : ascii) : bool := one_of "/\" c.
Definition ends_authority (c : ascii) : bool := one_of "/\?#" c.

(** *** Percent encoding *)

Definition hex_digit (n : N) : ascii :=
  if (n <? 10)%N then ascii_of_N (48 + n) else ascii_of_N (55 + n).

Definition hex_value (c : ascii) : option N :=
  if is_digit c then Some (code c - 48)%N
  else if in_range 65 70 c then Some (code c - 55)%N
  else if in_range 97 102 c then Some (code c - 87)%N
  else None.

Definition is_c0_control_set (c : ascii) : bool :=
  (code c <=? 31)%N || (126 <? code c)%N.

(** Space, the double quote, [#], [<] and [>]. *)
Definition query_extra : string :=
  String " " (String (ascii_of_nat 34) "#<>").

Definition query_set (c : ascii) : bool :=
  is_c0_control_set c || one_of query_extra c.

Definition special_query_set (c : ascii) : bool :=
  query_set c || one_of "'" c.

Definition path_set (c : ascii) : bool :=
  query_set c || one_of "?^`{}" c.

Fixpoint percent_encode (set : ascii -> bool) (s : string) : string :=
  match s with
  | EmptyString => EmptyString
  | String c r =>
      if set c then
        String "%" (String (hex_digit (code c / 16)) (String (hex_digit (code c mod 16))
               (percent_encode set r)))
      else String c (percent_encode set r)
  end.

(** Percent-decode; the flag tells whether a decoded byte fell outside ASCII. *)
Fixpoint percent_decode (s : string) : string * bool :=
  match s with
  | EmptyString => (EmptyString, false)
  | String c r =>
      let plain := let '(d, hi) := percent_decode r in (String c d, hi) in
      if Ascii.eqb c "%" then
        match r with
        | String a (String b r') =>
            match hex_value a, hex_value b with
            | Some x, Some y =>
                let '(d, hi) := percent_decode r' in
                (String (ascii_of_N (16 * x + y)) d, hi || (8 <=? x)%N)
            | _, _ => plain
            end
        | _ => plain
        end
      else plain
  end.

(** *** Hosts *)

Definition forbidden_domain_char (c : ascii) : bool :=
  (code c <=? 32)%N || (code c =? 127)%N || one_of "#/:<>?@[\]^|%" c.

Definition is_hex_digit (c : ascii) : bool :=
  match hex_value c with Some _ => true | None => false end.

(** The last label of a domain, a trailing dot apart. *)
Definition last_label (d : string) : string :=
  match rev (split "." d) with
  | EmptyString :: l :: _ => l
  | l :: _ => l
  | [] => EmptyString
  end.

(** The "ends in a number" checker: such a host is an IPv4 address. *)
Definition ends_in_number (d : string) : bool :=
  let l := last_label d in
  negb (is_empty l) &&
  (all_chars is_digit l ||
   (startsWith "0x" (toLowerCase l) && all_chars is_hex_digit (drop 2 l))).

(** The host parser on a domain name. *)
Definition parse_host (h : string) : outcome + string :=
  let '(d, high) := percent_decode h in
  if high || negb (all_chars is_ascii d) then inl Unmodelled
  else
    let d := toLowerCase d in
    if existsb (startsWith "xn--") (split "." d) then inl Unmodelled
    else if is_empty d then inl TypeError
    else if negb (all_chars (fun c => negb (forbidden_domain_char c)) d) then inl TypeError
    else if ends_in_number d then inl Unmodelled
    else inr d.

(** The part of the authority after the last at-sign. *)
Definition after_credentials (a : string) : string :=
  last (split "@" a) EmptyString.

Definition digits_value (s : string) : N :=
  fold_left (fun acc c => (10 * acc + (code c - 48))%N) (list_ascii_of_string s) 0%N.

(** Port state. *)
Definition port_ok (p : string) : bool :=
  match p with
  | EmptyString => true
  | String _ ds => all_chars is_digit ds && (digits_value ds <=? 65535)%N
  end.

(** *** Paths *)

Definition is_single_dot (seg : string) : bool :=
  existsb (String.eqb (toLowerCase seg)) ["."; "%2e"].

Definition is_double_dot (seg : string) : bool :=
  existsb (String.eqb (toLowerCase seg)) [".."; ".%2e"; "%2e."; "%2e%2e"].

(** Path state: the segments in order, the path so far kept reversed. *)
Fixpoint path_segments (segs : list string) (acc : list string) : list string :=
  match segs with
  | [] => rev acc
  | seg :: rest =>
      let is_last := match rest with [] => true | _ => false end in
      let seg := percent_encode path_set seg in
      if is_double_dot seg then
        path_segments rest (if is_last then EmptyString :: tl acc else tl acc)
      else if is_single_dot seg then
        path_segments rest (if is_last then EmptyString :: acc else acc)
      else path_segments rest (seg :: acc)
  end.

(** The path serialised: each segment after a slash. *)
Fixpoint serialize_path (segs : list string) : string :=
  match segs with
  | [] => EmptyString
  | seg :: rest => "/" ++ seg ++ serialize_path rest
  end.

(** Path start state to the end: path, query; the fragment is dropped. *)
Definition parse_path_query (s : string) : string * string :=
  let s := match s with
           | String c r => if is_slash c then r else s
           | EmptyString => s
           end in
  let '(p, rest) := span (fun c => negb (one_of "?#" c)) s in
  let path := serialize_path (path_segments (split_on is_slash p) []) in
  match rest with
  | String "?" r =>
      let '(q, _) := span (fun c => negb (one_of "#" c)) r in
      (path, percent_encode special_query_set q)
  | _ => (path, EmptyString)
  end.

(** *** The parser *)

(** From the special authority slashes state on. *)
Definition parse_special (rest : string) : outcome :=
  let '(authority, after) := span (fun c => negb (ends_authority c)) (drop_while is_slash rest) in
  let hostport := after_credentials authority in
  if startsWith "[" hostport then Unmodelled
  else
    let '(h, port) := span (fun c => negb (one_of ":" c)) hostport in
    if is_empty h then TypeError
    else
      match parse_host h with
      | inl o => o
      | inr host =>
          if negb (port_ok port) then TypeError
          else
            let '(path, q) := parse_path_query after in
            if snd (percent_decode q) then Unmodelled
            else Parsed {| hostname := host; pathname := path; query := q |}
      end.

Definition parse (raw : string) : outcome :=
  if negb (all_chars is_ascii raw) then Unmodelled
  else
    match scan_scheme (preprocess raw) with
    | None => TypeError
    | Some (scheme, rest) =>
        if existsb (String.eqb scheme) special_schemes then parse_special rest
        else Unmodelled
    end.

(** *** URLSearchParams *)

Definition plus_to_space (c : ascii) : ascii :=
  if Ascii.eqb c "+" then " "%char else c.

Definition form_decode (s : string) : string :=
  fst (percent_decode (map_chars plus_to_space s)).

(** One name-value pair of the application/x-www-form-urlencoded parser. *)
Definition parse_pair (seq : string) : string * string :=
  let '(n, v) := span (fun c => negb (one_of "=" c)) seq in
  (form_decode n, form_decode (drop 1 v)).

Definition searchParams (u : url) : list (string * string) :=
  map parse_pair (filter (fun seq => negb (is_empty seq)) (split "&" (query u))).

(** [u.searchParams.get(name)], [None] for [null]. *)
Definition searchParams_get (u : url) (name : string) : option string :=
  match filter (fun nv => String.eqb (fst nv) name) (searchParams u) with
  | nv :: _ => Some (snd nv)
  | [] => None
  end.

End URL.

(* ================================================================== *)
(** ** URL sanitation *)
(* ================================================================== *)

Inductive kind : Type := video | short.

(** The object [cleanYouTubeUrl] returns. *)
Inductive cleaned : Type :=
| Ok (url : string) (k : kind)
| Err (error : string).

Definition allowed : list string :=
  ["youtube.com"; "www.youtube.com"; "m.youtube.com"; "youtu.be"; "music.youtube.com"].

Definition watch_prefix : string := "https://www.youtube.com/watch?v=".
Definition shorts_prefix : string := "https://www.youtube.com/shorts/".

(** Lines 75-100: the body of the [try] once [new URL(raw)] has answered. *)
Definition clean_parsed (u : URL.url) : cleaned :=
  let host := toLowerCase (URL.hostname u) in
  if negb (existsb (String.eqb host) allowed) then Err "Only YouTube URLs are supported."
  else if String.eqb host "youtu.be" then
    let id := hd EmptyString (split "/" (strip_leading_slashes (URL.pathname u))) in
    if is_empty id then Err "Invalid youtu.be URL."
    else Ok (watch_prefix ++ id) video
  else
    let path := if is_empty (URL.pathname u) then "/" else URL.pathname u in
    if startsWith "/watch" path then
      match URL.searchParams_get u "v" with
      | Some v => if is_empty v then Err "Missing video id." else Ok (watch_prefix ++ v) video
      | None => Err "Missing video id."
      end
    else if includes "/shorts/" path then
      let parts := filter (fun p => negb (is_empty p)) (split "/" path) in
      match indexOf "shorts" parts with
      | None => Err "Invalid shorts URL."
      | Some idx =>
          match nth_error parts (S idx) with
          | Some id => Ok (shorts_prefix ++ id) short
          | None => Err "Invalid shorts URL."
          end
      end
    else if String.eqb host "music.youtube.com" && startsWith "/watch" path then
      match URL.searchParams_get u "v" with
      | Some v => if is_empty v then Err "Missing video id." else Ok (watch_prefix ++ v) video
      | None => Err "Missing video id."
      end
    else Err "Only direct YouTube video or shorts URLs are supported.".

(** [cleanYouTubeUrl(raw)], lines 72-104; [None] when [raw] is outside the
    inputs the URL model covers. *)
Definition cleanYouTubeUrl (raw : string) : option cleaned :=
  match URL.parse raw with
  | URL.Parsed u => Some (clean_parsed u)
  | URL.TypeError => Some (Err "Invalid URL.")
  | URL.Unmodelled => None
  end.

(* ================================================================== *)
(** ** The page and its event handlers *)
(* ================================================================== *)

Module App.

(** Elements the script hides and shows (class [d-none]). *)
Inductive elem : Type :=
| preview | previewSkel | progressSkel | progressBlock | resultBlock
| cancelBlock | errBox | newBtnTop | cancelBtn | progADSkel | progADWrap.

(** Places the script writes text into. *)
Inductive node : Type :=
| titleEl | channelName | channelSubs | bar_style_width | bar | statusBadge
| downloadedEl | totalEl | speedEl | etaEl | startedAt | expiresAt
| errmsgEl | filenameEl | resultExpiresAt.

Scheme Equality for elem.
Scheme Equality for node.

(** The source of the avatar image: a remote picture, or the inline SVG
    that [svgAvatar] draws around an initial. *)
Inductive image : Type :=
| Remote (src : string)
| Initial (letter : string).

Record DOM : Type := {
  hidden : elem -> bool;
  text : node -> string;
  pwrap_skel : bool;
  urlInput_value : string;
  urlInput_focused : bool;
  startBtn_disabled : bool;
  thumb_src : option string;
  thumb_marks : bool;               (* thumb.onload and onerror call loader.mark *)
  avatar_src : option image;
  avatar_fallback : option string;  (* the name channelAvatar.onerror draws *)
  downloadLink_href : option string
}.

(** The [loader] object, lines 112-119. *)
Record Loader : Type := {
  need : nat;
  done : nat;
  armed : bool;
  timeoutId : option nat
}.

Inductive callback : Type :=
| PollTick     (* poll *)
| Reveal.      (* hide(previewSkel); show(preview) *)

(** A live timer of the browser. *)
Record timer : Type := {
  t_id : nat;
  t_repeat : bool;
  t_delay : nat;
  t_run : callback
}.

(** A request on the wire.  A progress request remembers the timer whose
    tick issued it; nothing in the handlers reads that. *)
Inductive request : Type :=
| ReqProbe (url : option string)
| ReqStart (url : option string)
| ReqRetry (url : option string)
| ReqProgress (job : string) (driver : nat)
| ReqCancel (job : string).

Inductive toast_type : Type := info | error | success.

Record state : Type := {
  currentJobId : option string;
  currentCleanUrl : option string;
  pollTimer : option nat;
  loader : Loader;
  dom : DOM;
  toasts : list (toast_type * string);
  timers : list timer;
  next_timer : nat;
  pending : list request
}.

(** What a [fetch(...).then(r => r.json())] settles to. *)
Inductive reply (A : Type) : Type :=
| Failed (message : string)
| Answer (a : A).
Arguments Failed {A} message.
Arguments Answer {A} a.

Record meta : Type := {
  m_thumbnail : option string;
  m_uploader : option string;
  m_channel_avatar : option string;
  m_title : option string;
  m_subscribers : option number
}.

Record probe_json : Type := {
  pr_ok : bool;
  pr_meta : option meta;
  pr_error : option string
}.

Record start_json : Type := {
  st_ok : bool;
  st_job_id : option string;
  st_error : option string
}.

Record cancel_json : Type := {
  cn_ok : bool;
  cn_message : option string
}.

Inductive event : Type :=
| TypeUrl (value : string)
| Submit
| ProbeReply (r : reply probe_json)
| StartReply (r : reply start_json)
| ClickCancel
| CancelReply (job : string) (r : reply cancel_json)
| ClickNew
| ClickRetry
| RetryReply (r : reply start_json)
| Fire (id : nat)
| ProgressReply (job : string) (driver : nat) (r : reply payload)
| ThumbSettled
| AvatarError.

(** *** Field updates *)

Definition with_hidden (f : elem -> bool) (d : DOM) : DOM :=
  {| hidden := f; text := text d; pwrap_skel := pwrap_skel d;
     urlInput_value := urlInput_value d; urlInput_focused := urlInput_focused d;
     startBtn_disabled := startBtn_disabled d; thumb_src := thumb_src d;
     thumb_marks := thumb_marks d; avatar_src := avatar_src d;
     avatar_fallback := avatar_fallback d; downloadLink_href := downloadLink_href d |}.

Definition with_text (f : node -> string) (d : DOM) : DOM :=
  {| hidden := hidden d; text := f; pwrap_skel := pwrap_skel d;
     urlInput_value := urlInput_value d; urlInput_focused := urlInput_focused d;
     startBtn_disabled := startBtn_disabled d; thumb_src := thumb_src d;
     thumb_marks := thumb_marks d; avatar_src := avatar_src d;
     avatar_fallback := avatar_fallback d; downloadLink_href := downloadLink_href d |}.

Definition with_pwrap_skel (b : bool) (d : DOM) : DOM :=
  {| hidden := hidden d; text := text d; pwrap_skel := b;
     urlInput_value := urlInput_value d; urlInput_focused := urlInput_focused d;
     startBtn_disabled := startBtn_disabled d; thumb_src := thumb_src d;
     thumb_marks := thumb_marks d; avatar_src := avatar_src d;
     avatar_fallback := avatar_fallback d; downloadLink_href := downloadLink_href d |}.

Definition with_urlInput (v : string) (focused : bool) (d : DOM) : DOM :=
  {| hidden := hidden d; text := text d; pwrap_skel := pwrap_skel d;
     urlInput_value := v; urlInput_focused := focused;
     startBtn_disabled := startBtn_disabled d; thumb_src := thumb_src d;
     thumb_marks := thumb_marks d; avatar_src := avatar_src d;
     avatar_fallback := avatar_fallback d; downloadLink_href := downloadLink_href d |}.

Definition with_startBtn_disabled (b : bool) (d : DOM) : DOM :=
  {| hidden := hidden d; text := text d; pwrap_skel := pwrap_skel d;
     urlInput_value := urlInput_value d; urlInput_focused := urlInput_focused d;
     startBtn_disabled := b; thumb_src := thumb_src d;
     thumb_marks := thumb_marks d; avatar_src := avatar_src d;
     avatar_fallback := avatar_fallback d; downloadLink_href := downloadLink_href d |}.

Definition with_thumb (src : option string) (marks : bool) (d : DOM) : DOM :=
  {| hidden := hidden d; text := text d; pwrap_skel := pwrap_skel d;
     urlInput_value := urlInput_value d; urlInput_focused := urlInput_focused d;
     startBtn_disabled := startBtn_disabled d; thumb_src := src;
     thumb_marks := marks; avatar_src := avatar_src d;
     avatar_fallback := avatar_fallback d; downloadLink_href := downloadLink_href d |}.

Definition with_avatar (src : option image) (fallback : option string) (d : DOM) : DOM :=
  {| hidden := hidden d; text := text d; pwrap_skel := pwrap_skel d;
     urlInput_value := urlInput_value d; urlInput_focused := urlInput_focused d;
     startBtn_disabled := startBtn_disabled d; thumb_src := thumb_src d;
     thumb_marks := thumb_marks d; avatar_src := src;
     avatar_fallback := fallback; downloadLink_href := downloadLink_href d |}.

Definition with_href (h : option string) (d : DOM) : DOM :=
  {| hidden := hidden d; text := text d; pwrap_skel := pwrap_skel d;
     urlInput_value := urlInput_value d; urlInput_focused := urlInput_focused d;
     startBtn_disabled := startBtn_disabled d; thumb_src := thumb_src d;
     thumb_marks := thumb_marks d; avatar_src := avatar_src d;
     avatar_fallback := avatar_fallback d; downloadLink_href := h |}.

Definition with_job (j : option string) (s : state) : state :=
  {| currentJobId := j; currentCleanUrl := currentCleanUrl s; pollTimer := pollTimer s;
     loader := loader s; dom := dom s; toasts := toasts s; timers := timers s;
     next_timer := next_timer s; pending := pending s |}.

Definition with_cleanUrl (u : option string) (s : state) : state :=
  {| currentJobId := currentJobId s; currentCleanUrl := u; pollTimer := pollTimer s;
     loader := loader s; dom := dom s; toasts := toasts s; timers := timers s;
     next_timer := next_timer s; pending := pending s |}.

Definition with_pollTimer (t : option nat) (s : state) : state :=
  {| currentJobId := currentJobId s; currentCleanUrl := currentCleanUrl s; pollTimer := t;
     loader := loader s; dom := dom s; toasts := toasts s; timers := timers s;
     next_timer := next_timer s; pending := pending s |}.

Definition with_loader (l : Loader) (s : state) : state :=
  {| currentJobId := currentJobId s; currentCleanUrl := currentCleanUrl s;
     pollTimer := pollTimer s; loader := l; dom := dom s; toasts := toasts s;
     timers := timers s; next_timer := next_timer s; pending := pending s |}.

Definition with_dom (d : DOM) (s : state) : state :=
  {| currentJobId := currentJobId s; currentCleanUrl := currentCleanUrl s;
     pollTimer := pollTimer s; loader := loader s; dom := d; toasts := toasts s;
     timers := timers s; next_timer := next_timer s; pending := pending s |}.

Definition with_toasts (t : list (toast_type * string)) (s : state) : state :=
  {| currentJobId := currentJobId s; currentCleanUrl := currentCleanUrl s;
     pollTimer := pollTimer s; loader := loader s; dom := dom s; toasts := t;
     timers := timers s; next_timer := next_timer s; pending := pending s |}.

Definition with_timers (t : list timer) (next : nat) (s : state) : state :=
  {| currentJobId := currentJobId s; currentCleanUrl := currentCleanUrl s;
     pollTimer := pollTimer s; loader := loader s; dom := dom s; toasts := toasts s;
     timers := t; next_timer := next; pending := pending s |}.

Definition with_pending (p : list request) (s : state) : state :=
  {| currentJobId := currentJobId s; currentCleanUrl := currentCleanUrl s;
     pollTimer := pollTimer s; loader := loader s; dom := dom s; toasts := toasts s;
     timers := timers s; next_timer := next_timer s; pending := p |}.

(** Statements run one after the other. *)
Definition steps {A : Type} (fs : list (A -> A)) (a : A) : A :=
  fold_left (fun x f => f x) fs a.

Definition on_dom (f : DOM -> DOM) (s : state) : state := with_dom (f (dom s)) s.

(** *** Browser primitives *)

(** [show(el)] and [hide(el)], lines 107-108. *)
Definition show (e : elem) (d : DOM) : DOM :=
  with_hidden (fun x => if elem_beq x e then false else hidden d x) d.

Definition hide (e : elem) (d : DOM) : DOM :=
  with_hidden (fun x => if elem_beq x e then true else hidden d x) d.

Definition set_text (n : node) (v : string) (d : DOM) : DOM :=
  with_text (fun x => if node_beq x n then v else text d x) d.

(** [focusInput()], line 109. *)
Definition focusInput (d : DOM) : DOM := with_urlInput (urlInput_value d) true d.

(** [startBarSkeleton()] and [stopBarSkeleton()], lines 122-123. *)
Definition startBarSkeleton : DOM -> DOM := with_pwrap_skel true.
Definition stopBarSkeleton : DOM -> DOM := with_pwrap_skel false.

(** [showToast(type, message)], lines 56-69: one more toast on the page. *)
Definition showToast (t : toast_type) (message : string) (s : state) : state :=
  with_toasts (toasts s ++ [(t, message)]) s.

(** [setTimeout] and [setInterval] draw their handles from one counter. *)
Definition set_timer (repeat : bool) (delay : nat) (run : callback) (s : state)
  : nat * state :=
  let id := next_timer s in
  (id, with_timers (timers s ++ [{| t_id := id; t_repeat := repeat;
                                    t_delay := delay; t_run := run |}]) (S id) s).

Definition setTimeout (run : callback) (delay : nat) : state -> nat * state :=
  set_timer false delay run.

Definition setInterval (run : callback) (delay : nat) : state -> nat * state :=
  set_timer true delay run.

(** [clearTimeout(h)] and [clearInterval(h)]: the same operation; a handle
    that is [null] or names no live timer is ignored. *)
Definition clear_timer (h : option nat) (s : state) : state :=
  match h with
  | Some id =>
      with_timers (filter (fun t => negb (Nat.eqb (t_id t) id)) (timers s)) (next_timer s) s
  | None => s
  end.

Definition clearTimeout := clear_timer.
Definition clearInterval := clear_timer.

Definition live (id : nat) (s : state) : bool :=
  existsb (fun t => Nat.eqb (t_id t) id) (timers s).

(** The body of the three reveal callbacks. *)
Definition reveal : state -> state :=
  on_dom (steps [hide previewSkel; show preview]).

(** [svgAvatar(name)], lines 353-363, as the initial it draws. *)
Definition svgAvatar (name : string) : image :=
  Initial (toUpperCase (take 1 (trim (if is_empty name then "?" else name)))).

(** *** The loader *)

Definition loader_reset (s : state) : state :=
  clearTimeout (timeoutId (loader s))
    (with_loader {| need := 0; done := 0; armed := false;
                    timeoutId := timeoutId (loader s) |} s).

Definition loader_add (s : state) : state :=
  let l := loader s in
  with_loader {| need := S (need l); done := done l; armed := armed l;
                 timeoutId := timeoutId l |} s.

Definition loader_mark (s : state) : state :=
  let l := loader s in
  let s := with_loader {| need := need l; done := S (done l); armed := armed l;
                          timeoutId := timeoutId l |} s in
  if armed l && (need l <=? S (done l))%nat then snd (setTimeout Reveal 60 s) else s.

Definition loader_arm (s : state) : state :=
  let l := loader s in
  let s := with_loader {| need := need l; done := done l; armed := true;
                          timeoutId := timeoutId l |} s in
  let s := if (need l =? 0)%nat then reveal s else s in
  let '(id, s) := setTimeout Reveal 1000 s in
  let l := loader s in
  with_loader {| need := need l; done := done l; armed := armed l;
                 timeoutId := Some id |} s.

(** *** Reset *)

Definition apply_view (v : progress_view) : DOM -> DOM :=
  steps [set_text bar_style_width (bar_width v); set_text bar (bar_text v);
         set_text statusBadge (status_badge v);
         set_text downloadedEl (downloaded_text v); set_text totalEl (total_text v);
         set_text speedEl (speed_text v); set_text etaEl (eta_text v)].

(** [resetUI()], lines 125-140. *)
Definition resetUI (s : state) : state :=
  with_job None
    (on_dom (steps [
       hide preview; hide previewSkel; hide progressSkel; hide progressBlock;
       hide resultBlock; hide cancelBlock; hide errBox;
       set_text titleEl ""; set_text channelName ""; set_text channelSubs "";
       (fun d => with_thumb None (thumb_marks d) d);
       (fun d => with_avatar None (avatar_fallback d) d);
       set_text bar_style_width "0%"; set_text bar "0%";
       set_text downloadedEl "0 B"; set_text totalEl "?";
       set_text speedEl "-"; set_text etaEl "-";
       set_text startedAt em_dash; set_text expiresAt em_dash;
       hide newBtnTop; show cancelBtn;
       show progADSkel; hide progADWrap; set_text expiresAt em_dash;
       stopBarSkeleton]) s).

(** [clearForNew()], lines 142-146. *)
Definition clearForNew (s : state) : state :=
  on_dom (fun d => focusInput (with_urlInput "" (urlInput_focused d) d)) (resetUI s).

(** *** Requests in flight *)

Definition request_eqb (a b : request) : bool :=
  let opt x y := match x, y with
                 | Some u, Some v => String.eqb u v
                 | None, None => true
                 | _, _ => false
                 end in
  match a, b with
  | ReqProbe x, ReqProbe y => opt x y
  | ReqStart x, ReqStart y => opt x y
  | ReqRetry x, ReqRetry y => opt x y
  | ReqProgress j t, ReqProgress k u => String.eqb j k && Nat.eqb t u
  | ReqCancel j, ReqCancel k => String.eqb j k
  | _, _ => false
  end.

Definition fetch (r : request) (s : state) : state :=
  with_pending (pending s ++ [r]) s.

(** The first request in flight that satisfies [p], taken off the wire. *)
Fixpoint settle (p : request -> bool) (l : list request) : option (request * list request) :=
  match l with
  | [] => None
  | r :: rest =>
      if p r then Some (r, rest)
      else match settle p rest with
           | Some (x, rest') => Some (x, r :: rest')
           | None => None
           end
  end.

(** *** Cancel, lines 149-161 *)

Definition cancel_click (s : state) : state :=
  match currentJobId s with
  | Some job => if is_empty job then s else fetch (ReqCancel job) s
  | None => s
  end.

Definition ellipsis : string :=
  String (ascii_of_nat 226) (String (ascii_of_nat 128) (String (ascii_of_nat 166) "")).

Definition cancel_reply (r : reply cancel_json) (s : state) : state :=
  match r with
  | Answer j =>
      if cn_ok j then showToast info ("Cancelling" ++ ellipsis) s
      else showToast error (or_else (cn_message j) "Failed to cancel.") s
  | Failed _ => showToast error "Failed to cancel." s
  end.

(** *** Retry, lines 169-193 *)

Definition retry_click (s : state) : state :=
  if falsy (currentCleanUrl s) then showToast error "No URL to retry." s
  else
    fetch (ReqRetry (currentCleanUrl s))
      (on_dom (steps [hide cancelBlock; show progressSkel]) s).

Definition start_failure (fallback : string) (r : reply start_json) : option string :=
  match r with
  | Failed m => Some m
  | Answer j => if st_ok j then None else Some (or_else (st_error j) fallback)
  end.

Definition job_of (r : reply start_json) : option string :=
  match r with
  | Answer j => st_job_id j
  | Failed _ => None
  end.

Definition retry_reply (r : reply start_json) (s : state) : state :=
  match start_failure "Failed to restart download" r with
  | None =>
      let s := with_job (job_of r) s in
      let s := on_dom (steps [hide progressSkel; show progressBlock; startBarSkeleton;
                              show cancelBtn; hide newBtnTop]) s in
      let '(id, s) := setInterval PollTick 900 s in
      showToast info "Retry started." (with_pollTimer (Some id) s)
  | Some m => showToast error m (on_dom (hide progressSkel) s)
  end.

(** *** Submit, lines 196-279 *)

(** Up to the first [await]; [None] when the text is outside the URL model. *)
Definition submit (s : state) : option state :=
  if startBtn_disabled (dom s) then Some s
  else
    let s := on_dom (with_startBtn_disabled true) (resetUI s) in
    let raw := trim (urlInput_value (dom s)) in
    match cleanYouTubeUrl raw with
    | None => None
    | Some (Err e) => Some (showToast error e (on_dom (with_startBtn_disabled false) s))
    | Some (Ok url _) =>
        let s := on_dom (fun d => with_urlInput url (urlInput_focused d) d) s in
        let s := with_cleanUrl (Some url) s in
        let s := on_dom (steps [show previewSkel; show progressSkel]) s in
        Some (fetch (ReqProbe (currentCleanUrl s)) s)
    end.

Definition empty_meta : meta :=
  {| m_thumbnail := None; m_uploader := None; m_channel_avatar := None;
     m_title := None; m_subscribers := None |}.

(** From the probe's answer to the second [await]. *)
Definition probe_reply (r : reply probe_json) (s : state) : state :=
  let failure :=
    match r with
    | Failed m => Some m
    | Answer j => if pr_ok j then None else Some (or_else (pr_error j) "Probe failed")
    end in
  match failure, r with
  | None, Answer j =>
      let m := match pr_meta j with Some m => m | None => empty_meta end in
      let s := loader_reset s in
      let s :=
        if falsy (m_thumbnail m) then on_dom (fun d => with_thumb None (thumb_marks d) d) s
        else on_dom (with_thumb (m_thumbnail m) true) (loader_add s) in
      let name := or_else (m_uploader m) "Unknown" in
      let s :=
        if falsy (m_channel_avatar m)
        then on_dom (fun d => with_avatar (Some (svgAvatar name)) (avatar_fallback d) d) s
        else on_dom (with_avatar (option_map Remote (m_channel_avatar m)) (Some name)) s in
      let s := on_dom (steps [
                 set_text titleEl (or_else (m_title m) "(Untitled)");
                 set_text channelName name;
                 set_text channelSubs
                   match m_subscribers m with
                   | Some n => formatSubs n
                   | None => em_dash ++ " subscribers"
                   end]) s in
      let s := loader_arm s in
      fetch (ReqStart (currentCleanUrl s)) s
  | Some m, _ | _, Failed m =>
      on_dom (with_startBtn_disabled false)
        (showToast error m (on_dom (hide previewSkel) s))
  end.

Definition start_reply (r : reply start_json) (s : state) : state :=
  let s :=
    match start_failure "Failed to start download" r with
    | None =>
        let s := with_job (job_of r) s in
        let s := on_dom (steps [hide progressSkel; show progressBlock; startBarSkeleton;
                                show progADSkel; hide progADWrap;
                                set_text expiresAt em_dash]) s in
        let '(id, s) := setInterval PollTick 900 s in
        showToast info "Downloading started." (with_pollTimer (Some id) s)
    | Some m =>
        on_dom (with_startBtn_disabled false)
          (showToast error m (on_dom (hide progressSkel) s))
    end in
  on_dom (with_startBtn_disabled false) s.

(** *** Polling, lines 282-330 *)

(** Up to the [await]: the guard and the request. *)
Definition poll (driver : nat) (s : state) : state :=
  match currentJobId s with
  | Some job => if is_empty job then s else fetch (ReqProgress job driver) s
  | None => s
  end.

Definition status_is (d : payload) (v : string) : bool :=
  match p_status d with
  | Some x => String.eqb x v
  | None => false
  end.

(** The [catch] block, lines 325-329. *)
Definition poll_catch (message : string) (s : state) : state :=
  let s := clearInterval (pollTimer s) s in
  let s := showToast error message s in
  on_dom (steps [hide cancelBtn; show newBtnTop]) s.

(** Lines 288-324, on an answer that says [ok]. *)
Definition poll_apply (d : payload) (s : state) : state :=
  let s :=
    match p_started_at_ist d with
    | Some t => if is_empty t then s
                else on_dom (set_text startedAt ("Started: " ++ t)) s
    | None => s
    end in
  let s :=
    match p_status d with
    | Some st =>
        if negb (is_empty st) && negb (String.eqb (toLowerCase st) "queued")
        then on_dom stopBarSkeleton s else s
    | None => s
    end in
  let s :=
    match p_expires_at_ist d with
    | Some e =>
        if negb (is_empty e) &&
           (status_is d "downloading" || status_is d "processing" || status_is d "finished")
        then on_dom (steps [set_text expiresAt e; hide progADSkel; show progADWrap]) s
        else s
    | None => s
    end in
  let s := on_dom (apply_view (updateProgress d)) s in
  if status_is d "finished" then
    let s := clearInterval (pollTimer s) s in
    on_dom (steps [
      hide cancelBtn; show newBtnTop;
      set_text filenameEl (or_else (p_filename d) "(unknown)");
      (fun dm => if falsy (p_download_url d) then dm else with_href (p_download_url d) dm);
      set_text resultExpiresAt (or_else (p_expires_at_ist d) em_dash);
      show resultBlock]) s
  else if status_is d "expired" then
    let s := clearInterval (pollTimer s) s in
    let s := showToast error "This file has expired and was auto-deleted." s in
    on_dom (steps [hide cancelBtn; show newBtnTop]) s
  else if status_is d "cancelled" then
    let s := clearInterval (pollTimer s) s in
    let s := showToast info "Download cancelled." s in
    on_dom (steps [hide progressBlock; hide resultBlock; show cancelBlock]) s
  else if status_is d "error" then
    let s := clearInterval (pollTimer s) s in
    let s := showToast error (or_else (p_error d) "Unknown error") s in
    on_dom (steps [show errBox; set_text errmsgEl (or_else (p_error d) "Unknown error");
                   hide cancelBtn; show newBtnTop]) s
  else s.

(** After the [await]. *)
Definition poll_reply (r : reply payload) (s : state) : state :=
  match r with
  | Failed m => poll_catch m s
  | Answer d =>
      if p_ok d then poll_apply d s
      else poll_catch (or_else (p_error d) "Progress error") s
  end.

(** *** Timers firing *)

Definition fire (id : nat) (s : state) : option state :=
  match find (fun t => Nat.eqb (t_id t) id) (timers s) with
  | Some t =>
      let s := if t_repeat t then s else clear_timer (Some id) s in
      Some match t_run t with
           | PollTick => poll id s
           | Reveal => reveal s
           end
  | None => None
  end.

(** *** The event loop *)

Definition is_probe (r : request) : bool :=
  match r with ReqProbe _ => true | _ => false end.
Definition is_start (r : request) : bool :=
  match r with ReqStart _ => true | _ => false end.
Definition is_retry (r : request) : bool :=
  match r with ReqRetry _ => true | _ => false end.

(** One turn of the event loop; [None] when the event cannot occur in [s]
    (an answer to a request that is not in flight, a dead timer). *)
Definition step (s : state) (e : event) : option state :=
  let answered p k :=
    match settle p (pending s) with
    | Some (_, rest) => Some (k (with_pending rest s))
    | None => None
    end in
  match e with
  | TypeUrl v => Some (on_dom (fun d => with_urlInput v (urlInput_focused d) d) s)
  | Submit => submit s
  | ProbeReply r => answered is_probe (probe_reply r)
  | StartReply r => answered is_start (start_reply r)
  | ClickCancel => Some (cancel_click s)
  | CancelReply job r => answered (request_eqb (ReqCancel job)) (cancel_reply r)
  | ClickNew => Some (clearForNew s)
  | ClickRetry => Some (retry_click s)
  | RetryReply r => answered is_retry (retry_reply r)
  | Fire id => fire id s
  | ProgressReply job driver r =>
      answered (request_eqb (ReqProgress job driver)) (poll_reply r)
  | ThumbSettled =>
      if thumb_marks (dom s) then Some (loader_mark s) else Some s
  | AvatarError =>
      match avatar_fallback (dom s) with
      | Some name =>
          Some (on_dom (fun d => with_avatar (Some (svgAvatar name)) (avatar_fallback d) d) s)
      | None => Some s
      end
  end.

Fixpoint run (s : state) (es : list event) : option state :=
  match es with
  | [] => Some s
  | e :: rest =>
      match step s e with
      | Some s' => run s' rest
      | None => None
      end
  end.

(** The page as the script finds it, and after [init], lines 378-381. *)
Definition blank : state :=
  {| currentJobId := None; currentCleanUrl := None; pollTimer := None;
     loader := {| need := 0; done := 0; armed := false; timeoutId := None |};
     dom := {| hidden := fun _ => false; text := fun _ => "";
               pwrap_skel := false; urlInput_value := ""; urlInput_focused := false;
               startBtn_disabled := false; thumb_src := None; thumb_marks := false;
               avatar_src := None; avatar_fallback := None;
               downloadLink_href := None |};
     toasts := []; timers := []; next_timer := 1; pending := [] |}.

Definition init : state := on_dom focusInput (resetUI blank).

End App.

Import App.

(* ================================================================== *)
(** ** Vocabulary of the statements *)
(* ================================================================== *)

(** [x] forced into [0, 100], the way the specification words it: values
    below the range go to 0, values above it to 100, the others stay. *)
Definition clamp_0_100 (x : number) : number :=
  if lt x (of_Z 0) then of_Z 0
  else if gt x (of_Z 100) then of_Z 100
  else x.

Definition in_0_100 (x : number) : bool :=
  ge x (of_Z 0) && le x (of_Z 100).




(** The integers [lo], [lo + 1], ... ([n] of them). *)
Fixpoint Zrange (lo : Z) (n : nat) : list Z :=
  match n with
  | O => []
  | S k => lo :: Zrange (lo + 1) k
  end.

(** The decimal numeral of an integer, from the standard library. *)
Definition decimal (n : Z) : string := NilEmpty.string_of_int (Z.to_int n).




(** The characters video ids are made of: letters, digits, [-] and [_]. *)
Definition is_id_char (c : ascii) : bool := is_alnum c || URL.one_of "-_" c.

(** The canonical URL of a video id. *)
Definition canonical (k : kind) (id : string) : string :=
  match k with
  | video => watch_prefix ++ id
  | short => shorts_prefix ++ id
  end.

(** What follows the canonical prefix in a URL of kind [k]. *)
Definition id_of (k : kind) (url : string) : string :=
  match k with
  | video => drop (String.length watch_prefix) url
  | short => drop (String.length shorts_prefix) url
  end.

Definition short_link (id : string) : string := "https://youtu.be/" ++ id.

(** The preview is on show and its skeleton is not. *)
Definition revealed (s : state) : Prop :=
  hidden (dom s) previewSkel = true /\ hidden (dom s) preview = false.

(** Every live timer has a handle below the next one to be drawn. *)
Definition fresh_handles (s : state) : Prop :=
  Forall (fun t => (t_id t < next_timer s)%nat) (timers s).

(** The job, its timer and the page are the same in both states. *)
Definition same_job (a b : state) : Prop :=
  currentJobId a = currentJobId b /\
  currentCleanUrl a = currentCleanUrl b /\
  pollTimer a = pollTimer b /\
  timers a = timers b /\
  loader a = loader b /\
  dom a = dom b.

(** A poll outcome after which the script stops polling: a transport or
    parse failure, an answer that is not [ok], or a terminal status. *)
Definition stops_polling (r : reply payload) : bool :=
  match r with
  | Failed _ => true
  | Answer d =>
      negb (p_ok d) ||
      existsb (status_is d) ["finished"; "expired"; "cancelled"; "error"]
  end.

Definition progress_of (status : string) (percent : Z) : payload :=
  {| p_ok := true; p_status := Some status; p_progress := Some (of_Z percent);
     p_downloaded := None; p_total := None; p_speed := None; p_eta := None;
     p_started_at_ist := None; p_expires_at_ist := None; p_filename := None;
     p_download_url := None; p_error := None |}.

Definition probe_ok : reply probe_json :=
  Answer {| pr_ok := true; pr_meta := None; pr_error := None |}.

Definition started (job : string) : reply start_json :=
  Answer {| st_ok := true; st_job_id := Some job; st_error := None |}.

(** A first video is submitted and its job starts, with interval timer 2. *)
Definition first_job_started : list event :=
  [TypeUrl "https://youtu.be/first"; Submit; ProbeReply probe_ok;
   StartReply (started "job-1")].

(** The timer ticks once, so that a poll of the first job is in flight. *)
Definition first_job_polling : list event :=
  (first_job_started ++ [Fire 2])%list.

(** A second video is submitted while the first job is still running. *)
Definition second_submit : list event :=
  [TypeUrl "https://youtu.be/second"; Submit].

(** The second job starts, with interval timer 4. *)
Definition second_job_starts : list event :=
  [ProbeReply probe_ok; StartReply (started "job-2")].

(** The answer to the poll of the first job arrives. *)
Definition stale_answer : list event :=
  [ProgressReply "job-1" 2 (Answer (progress_of "downloading" 40))].

(** The statuses of one download, answered to four ticks of timer 2. *)
Definition whole_download : list event :=
  [Fire 2; ProgressReply "job-1" 2 (Answer (progress_of "queued" 0));
   Fire 2; ProgressReply "job-1" 2 (Answer (progress_of "downloading" 40));
   Fire 2; ProgressReply "job-1" 2 (Answer (progress_of "processing" 97));
   Fire 2; ProgressReply "job-1" 2 (Answer (progress_of "finished" 100))].

(** The width of the progress bar after each event of a run, the events
    that cannot occur left out. *)
Fixpoint bar_widths (s : state) (es : list event) : list string :=
  match es with
  | [] => []
  | e :: rest =>
      match step s e with
      | Some s' => text (dom s') bar_style_width :: bar_widths s' rest
      | None => []
      end
  end.

Definition after (es : list event) : option state := run init es.

(** Characters of plain query text: those of an id, [=] and [&]. *)
Definition is_param_char (c : ascii) : bool := is_id_char c || URL.one_of "=&" c.

(** Characters of plain path text: those of an id and [/]. *)
Definition is_segment_char (c : ascii) : bool := is_id_char c || is_char "/" c.

(** What may follow the id in a link: nothing, a query, or more path. *)
Inductive trailer : Type :=
| NoTrailer
| QueryTrailer (q : string)
| PathTrailer (p : string).

Definition trailer_text (t : trailer) : string :=
  match t with
  | NoTrailer => ""
  | QueryTrailer q => "?" ++ q
  | PathTrailer p => "/" ++ p
  end.

Definition plain_trailer (t : trailer) : bool :=
  match t with
  | NoTrailer => true
  | QueryTrailer q => all_chars is_param_char q
  | PathTrailer p => all_chars is_segment_char p
  end.

(** Further parameters after [v=<id>]: nothing, or [&] and plain text. *)
Definition more_params (q : option string) : string :=
  match q with
  | None => ""
  | Some q => "&" ++ q
  end.

Definition plain_params (q : option string) : bool :=
  match q with
  | None => true
  | Some q => all_chars is_param_char q
  end.

(** Characters of the links considered below. *)
Definition is_link_char (c : ascii) : bool :=
  is_id_char c || URL.one_of "/?&=" c.

(** The hosts of the allow-list other than the short-link host. *)
Definition site_hosts : list string :=
  filter (fun h => negb (String.eqb h "youtu.be")) allowed.

(** An answer [ok] whose status is exactly [cancelled]. *)
Definition says_cancelled (r : reply payload) : bool :=
  match r with
  | Answer d => p_ok d && status_is d "cancelled"
  | Failed _ => false
  end.

(** The timeout that [loader.arm()] adds to the timers of [s]. *)
Definition arm_timeout (s : state) : timer :=
  {| t_id := next_timer s; t_repeat := false; t_delay := 1000; t_run := Reveal |}.

(** The text field holds [raw], the button is enabled. *)
Definition ready_with (raw : string) (s : state) : Prop :=
  startBtn_disabled (dom s) = false /\ urlInput_value (dom s) = raw.








(** The two handlers of an answer of [/api/start]: the one of the submit
    flow (lines 259-278) and the one of the retry button (lines 178-192). *)
Inductive start_handler : Type := OfSubmit | OfRetry.

Definition handle_start (h : start_handler) : reply start_json -> state -> state :=
  match h with
  | OfSubmit => start_reply
  | OfRetry => retry_reply
  end.

Definition fallback_of (h : start_handler) : string :=
  match h with
  | OfSubmit => "Failed to start download"
  | OfRetry => "Failed to restart download"
  end.

(** The interval that [setInterval(poll, 900)] adds to the timers of [s]. *)
Definition poll_interval (s : state) : timer :=
  {| t_id := next_timer s; t_repeat := true; t_delay := 900; t_run := PollTick |}.



(* ================================================================== *)
(** * Properties *)
(* ================================================================== *)
(** ** The progress mapping *)

Lemma Qle_bool_false (x y : Q) : Qle_bool x y = false -> (y < x)%Q.
Proof.
  intro H. apply Qnot_le_lt. intro L.
  apply Qle_bool_iff in L. congruence.
Qed.

Ltac qbool :=
  repeat match goal with
  | H : Qle_bool _ _ = true |- _ => apply Qle_bool_iff in H
  | H : Qle_bool _ _ = false |- _ => apply Qle_bool_false in H
  | H : Qeq_bool _ _ = true |- _ => apply Qeq_bool_iff in H
  end.

Ltac qcases :=
  repeat match goal with
  | |- context [Qle_bool ?a ?b] =>
      let E := fresh "E" in destruct (Qle_bool a b) eqn:E; cbn
  end.



Lemma clamp_in_range (x : number) : x <> NaN -> in_0_100 (clamp_0_100 x) = true.
Proof.
  destruct x as [| | |q]; intro H; try reflexivity; try congruence.
  unfold clamp_0_100, in_0_100, gt, lt, ge, le, of_Z; cbn.
  qcases; try reflexivity; qbool; unfold inject_Z in *; try lra.
  all: rewrite ?andb_true_iff; repeat split; try apply Qle_bool_iff; unfold inject_Z; try lra.
Qed.




(*--END--*)

(** ** Text fields and subscriber counts *)

Lemma Zrange_In (k : nat) : forall lo n,
  lo <= n < lo + Z.of_nat k -> In n (Zrange lo k).
Proof.
  induction k as [|k IH]; intros lo n H.
  - lia.
  - cbn [Zrange]. destruct (Z.eq_dec lo n) as [->|Ne].
    + left. reflexivity.
    + right. apply IH. lia.
Qed.

Lemma forall_Zrange (P : Z -> bool) (lo : Z) (k : nat) :
  forallb P (Zrange lo k) = true ->
  forall n, lo <= n < lo + Z.of_nat k -> P n = true.
Proof.
  intros H n Hn. rewrite forallb_forall in H. apply H, Zrange_In, Hn.
Qed.

(** C10. A whole subscriber count from 1 to 999 is printed with the
    letter of the first unit, B: [formatSubs(n)] is "<n>B subscribers". *)
Theorem formatSubs_below_thousand (n : Z) :
  1 <= n < 1000 ->
  formatSubs (of_Z n) = decimal n ++ "B subscribers".
Proof.
  intro H. apply String.eqb_eq.
  apply (forall_Zrange
           (fun n => String.eqb (formatSubs (of_Z n)) (decimal n ++ "B subscribers"))
           1 999).
  - vm_compute. reflexivity.
  - lia.
Qed.

Lemma formatSubs_below_thousand_witness :
  1 <= 5 < 1000 /\ formatSubs (of_Z 5) = "5B subscribers".
Proof.
  split; [lia|]. apply (formatSubs_below_thousand 5). lia.
Defined.





(** ** Strings *)

Lemma append_empty_r (s : string) : s ++ "" = s.
Proof. induction s as [|c s IH]; cbn; [reflexivity | rewrite IH; reflexivity]. Qed.

Lemma all_chars_app (p : ascii -> bool) (a b : string) :
  all_chars p (a ++ b) = all_chars p a && all_chars p b.
Proof.
  induction a as [|c a IH]; cbn; [reflexivity|].
  rewrite IH, andb_assoc. reflexivity.
Qed.

Lemma all_chars_impl (p q : ascii -> bool) (s : string) :
  (forall c, p c = true -> q c = true) ->
  all_chars p s = true -> all_chars q s = true.
Proof.
  intros I. induction s as [|c s IH]; cbn; [reflexivity|].
  intro H. apply andb_true_iff in H as [Hc Hs].
  rewrite (I c Hc), (IH Hs). reflexivity.
Qed.

Lemma span_all (p : ascii -> bool) (s : string) :
  all_chars p s = true -> span p s = (s, "").
Proof.
  induction s as [|c s IH]; cbn; [reflexivity|].
  intro H. apply andb_true_iff in H as [Hc Hs].
  rewrite Hc, (IH Hs). reflexivity.
Qed.

Lemma drop_while_none (p : ascii -> bool) (s : string) :
  all_chars (fun c => negb (p c)) s = true -> drop_while p s = s.
Proof.
  destruct s as [|c s]; cbn; [reflexivity|].
  intro H. apply andb_true_iff in H as [Hc _].
  apply negb_true_iff in Hc. rewrite Hc. reflexivity.
Qed.

Lemma split_on_none (sep : ascii -> bool) (s : string) :
  all_chars (fun c => negb (sep c)) s = true -> split_on sep s = [s].
Proof.
  induction s as [|c s IH]; cbn; [reflexivity|].
  intro H. apply andb_true_iff in H as [Hc Hs].
  apply negb_true_iff in Hc. rewrite Hc, (IH Hs). reflexivity.
Qed.

Lemma remove_chars_none (p : ascii -> bool) (s : string) :
  all_chars (fun c => negb (p c)) s = true -> URL.remove_chars p s = s.
Proof.
  induction s as [|c s IH]; cbn; [reflexivity|].
  intro H. apply andb_true_iff in H as [Hc Hs].
  apply negb_true_iff in Hc. rewrite Hc, (IH Hs). reflexivity.
Qed.

Lemma percent_encode_none (set : ascii -> bool) (s : string) :
  all_chars (fun c => negb (set c)) s = true -> URL.percent_encode set s = s.
Proof.
  induction s as [|c s IH]; cbn; [reflexivity|].
  intro H. apply andb_true_iff in H as [Hc Hs].
  apply negb_true_iff in Hc. rewrite Hc, (IH Hs). reflexivity.
Qed.

Lemma percent_decode_none (s : string) :
  all_chars (fun c => negb (Ascii.eqb c "%")) s = true ->
  URL.percent_decode s = (s, false).
Proof.
  induction s as [|c s IH]; cbn [URL.percent_decode all_chars]; [reflexivity|].
  intro H. apply andb_true_iff in H as [Hc Hs].
  apply negb_true_iff in Hc. rewrite Hc, (IH Hs). reflexivity.
Qed.

Lemma map_chars_fixed (f : ascii -> ascii) (s : string) :
  all_chars (fun c => Ascii.eqb (f c) c) s = true -> map_chars f s = s.
Proof.
  induction s as [|c s IH]; cbn; [reflexivity|].
  intro H. apply andb_true_iff in H as [Hc Hs].
  apply Ascii.eqb_eq in Hc. rewrite Hc, (IH Hs). reflexivity.
Qed.

Lemma rev_string_twice (s a b : string) :
  rev_string (rev_string s a) b = rev_string a (s ++ b).
Proof.
  revert a b. induction s as [|c s IH]; intros a b; cbn; [reflexivity|].
  rewrite IH. reflexivity.
Qed.

Lemma all_chars_rev (p : ascii -> bool) (s a : string) :
  all_chars p s = true -> all_chars p a = true ->
  all_chars p (rev_string s a) = true.
Proof.
  revert a. induction s as [|c s IH]; intros a Hs Ha; cbn in *; [exact Ha|].
  apply andb_true_iff in Hs as [Hc Hs].
  apply IH; [exact Hs|]. cbn. rewrite Hc, Ha. reflexivity.
Qed.

Lemma trim_with_none (p : ascii -> bool) (s : string) :
  all_chars (fun c => negb (p c)) s = true -> trim_with p s = s.
Proof.
  intro H. unfold trim_with.
  rewrite (drop_while_none p s H).
  rewrite drop_while_none by (apply all_chars_rev; [exact H | reflexivity]).
  rewrite rev_string_twice. cbn. apply append_empty_r.
Qed.

(** ** Characters of a video id *)

Ltac by_cases_on_char :=
  let c := fresh "c" in
  let H := fresh "H" in
  intros c H;
  destruct c as [[] [] [] [] [] [] [] []];
  solve [discriminate H | reflexivity].

Lemma id_char_ascii c : is_id_char c = true -> URL.is_ascii c = true.
Proof. revert c. by_cases_on_char. Qed.

Lemma id_char_visible c :
  is_id_char c = true -> negb (URL.is_c0_or_space c) = true.
Proof. revert c. by_cases_on_char. Qed.

Lemma id_char_no_newline c :
  is_id_char c = true -> negb (URL.is_tab_or_newline c) = true.
Proof. revert c. by_cases_on_char. Qed.

Lemma id_char_no_slash c : is_id_char c = true -> negb (URL.is_slash c) = true.
Proof. revert c. by_cases_on_char. Qed.

Lemma id_char_no_solidus c : is_id_char c = true -> negb (is_char "/" c) = true.
Proof. revert c. by_cases_on_char. Qed.

Lemma id_char_in_path c :
  is_id_char c = true -> negb (URL.one_of "?#" c) = true.
Proof. revert c. by_cases_on_char. Qed.

Lemma id_char_in_query c :
  is_id_char c = true -> negb (URL.one_of "#" c) = true.
Proof. revert c. by_cases_on_char. Qed.

Lemma id_char_path_plain c : is_id_char c = true -> negb (URL.path_set c) = true.
Proof. revert c. by_cases_on_char. Qed.

Lemma id_char_query_plain c :
  is_id_char c = true -> negb (URL.special_query_set c) = true.
Proof. revert c. by_cases_on_char. Qed.

Lemma id_char_no_percent c : is_id_char c = true -> negb (Ascii.eqb c "%") = true.
Proof. revert c. by_cases_on_char. Qed.

Lemma id_char_no_plus c :
  is_id_char c = true -> Ascii.eqb (URL.plus_to_space c) c = true.
Proof. revert c. by_cases_on_char. Qed.

Lemma id_char_no_ampersand c : is_id_char c = true -> negb (is_char "&" c) = true.
Proof. revert c. by_cases_on_char. Qed.

Lemma id_char_no_equals c : is_id_char c = true -> negb (URL.one_of "=" c) = true.
Proof. revert c. by_cases_on_char. Qed.

Lemma id_char_no_dot c :
  is_id_char c = true ->
  (Ascii.eqb (lower_char c) "." || Ascii.eqb (lower_char c) "%") = false.
Proof. revert c. by_cases_on_char. Qed.

(** ** Parsing canonical URLs *)

Section SafeId.

Variable id : string.
Hypothesis id_chars : all_chars is_id_char id = true.

Lemma id_chars_satisfy (q : ascii -> bool) :
  (forall c, is_id_char c = true -> q c = true) -> all_chars q id = true.
Proof. intro I. exact (all_chars_impl is_id_char q id I id_chars). Qed.

Lemma preprocess_plain (p : string) :
  all_chars (fun c => negb (URL.is_c0_or_space c)) p = true ->
  all_chars (fun c => negb (URL.is_tab_or_newline c)) p = true ->
  URL.preprocess (p ++ id) = p ++ id.
Proof.
  intros V N. unfold URL.preprocess.
  rewrite trim_with_none
    by (rewrite all_chars_app, V; apply (id_chars_satisfy _ id_char_visible)).
  apply remove_chars_none.
  rewrite all_chars_app, N. apply (id_chars_satisfy _ id_char_no_newline).
Qed.

Lemma is_dot_segment_id :
  is_empty id = false ->
  URL.is_single_dot id = false /\ URL.is_double_dot id = false.
Proof.
  destruct id as [|c r] eqn:E; [discriminate|]. intros _.
  pose proof id_chars as H. cbn in H. apply andb_true_iff in H as [Hc _].
  apply id_char_no_dot, orb_false_iff in Hc as [D P].
  unfold URL.is_single_dot, URL.is_double_dot, toLowerCase.
  cbn. rewrite D, P. cbn. split; reflexivity.
Qed.

(** The path state on one plain segment. *)
Lemma path_segments_id (acc : list string) :
  is_empty id = false ->
  URL.path_segments [id] acc = rev (id :: acc).
Proof.
  intro Ne. destruct (is_dot_segment_id Ne) as [S D].
  cbn [URL.path_segments].
  rewrite (percent_encode_none _ _ (id_chars_satisfy _ id_char_path_plain)), S, D.
  reflexivity.
Qed.

Lemma parse_path_query_id :
  is_empty id = false ->
  URL.parse_path_query ("/" ++ id) = ("/" ++ id, "").
Proof.
  intro Ne. unfold URL.parse_path_query. cbn [append URL.is_slash].
  change (URL.is_slash "/") with true. cbv iota.
  rewrite (span_all _ _ (id_chars_satisfy _ id_char_in_path)).
  rewrite (split_on_none _ _ (id_chars_satisfy _ id_char_no_slash)).
  rewrite (path_segments_id [] Ne). cbn.
  rewrite append_empty_r. reflexivity.
Qed.

Lemma parse_path_query_shorts :
  is_empty id = false ->
  URL.parse_path_query ("/shorts/" ++ id) = ("/shorts/" ++ id, "").
Proof.
  intro Ne. unfold URL.parse_path_query. cbn [append].
  change (URL.is_slash "/") with true. cbv iota.
  change (String "s" (String "h" (String "o" (String "r" (String "t" (String "s"
            (String "/" id))))))) with ("shorts/" ++ id).
  rewrite span_all
    by exact (id_chars_satisfy _ id_char_in_path).
  change (split_on URL.is_slash ("shorts/" ++ id))
    with ("shorts" :: split_on URL.is_slash id).
  rewrite (split_on_none _ _ (id_chars_satisfy _ id_char_no_slash)).
  change (URL.path_segments ["shorts"; id] []) with (URL.path_segments [id] ["shorts"]).
  rewrite (path_segments_id ["shorts"] Ne). cbn.
  rewrite append_empty_r. reflexivity.
Qed.

Lemma parse_path_query_watch :
  URL.parse_path_query ("/watch?v=" ++ id) = ("/watch", "v=" ++ id).
Proof.
  change (URL.parse_path_query ("/watch?v=" ++ id))
    with (let '(q, _) := span (fun c => negb (URL.one_of "#" c)) ("v=" ++ id) in
          ("/watch", URL.percent_encode URL.special_query_set q)).
  rewrite span_all
    by exact (id_chars_satisfy _ id_char_in_query).
  rewrite percent_encode_none
    by exact (id_chars_satisfy _ id_char_query_plain).
  reflexivity.
Qed.

Lemma percent_decode_id : URL.percent_decode id = (id, false).
Proof. apply percent_decode_none, (id_chars_satisfy _ id_char_no_percent). Qed.

Lemma form_decode_id : URL.form_decode id = id.
Proof.
  unfold URL.form_decode.
  rewrite (map_chars_fixed _ _ (id_chars_satisfy _ id_char_no_plus)), percent_decode_id.
  reflexivity.
Qed.

Lemma parse_short_link :
  is_empty id = false ->
  URL.parse (short_link id) =
  URL.Parsed {| URL.hostname := "youtu.be"; URL.pathname := "/" ++ id;
                URL.query := "" |}.
Proof.
  intro Ne. unfold URL.parse, short_link.
  rewrite all_chars_app, (id_chars_satisfy _ id_char_ascii).
  rewrite preprocess_plain by reflexivity.
  change (URL.scan_scheme ("https://youtu.be/" ++ id))
    with (Some ("https", "//youtu.be/" ++ id)).
  cbv iota beta.
  change (existsb (String.eqb "https") URL.special_schemes) with true. cbv iota.
  change (URL.parse_special ("//youtu.be/" ++ id))
    with (let '(path, q) := URL.parse_path_query ("/" ++ id) in
          if snd (URL.percent_decode q) then URL.Unmodelled
          else URL.Parsed {| URL.hostname := "youtu.be"; URL.pathname := path;
                             URL.query := q |}).
  rewrite (parse_path_query_id Ne). reflexivity.
Qed.

Lemma parse_watch :
  URL.parse (watch_prefix ++ id) =
  URL.Parsed {| URL.hostname := "www.youtube.com"; URL.pathname := "/watch";
                URL.query := "v=" ++ id |}.
Proof.
  unfold URL.parse.
  rewrite all_chars_app, (id_chars_satisfy _ id_char_ascii).
  rewrite preprocess_plain by reflexivity.
  change (URL.scan_scheme (watch_prefix ++ id))
    with (Some ("https", "//www.youtube.com/watch?v=" ++ id)).
  cbv iota beta.
  change (existsb (String.eqb "https") URL.special_schemes) with true. cbv iota.
  change (URL.parse_special ("//www.youtube.com/watch?v=" ++ id))
    with (let '(path, q) := URL.parse_path_query ("/watch?v=" ++ id) in
          if snd (URL.percent_decode q) then URL.Unmodelled
          else URL.Parsed {| URL.hostname := "www.youtube.com"; URL.pathname := path;
                             URL.query := q |}).
  rewrite parse_path_query_watch.
  rewrite percent_decode_none by exact (id_chars_satisfy _ id_char_no_percent).
  reflexivity.
Qed.

Lemma parse_shorts :
  is_empty id = false ->
  URL.parse (shorts_prefix ++ id) =
  URL.Parsed {| URL.hostname := "www.youtube.com"; URL.pathname := "/shorts/" ++ id;
                URL.query := "" |}.
Proof.
  intro Ne. unfold URL.parse.
  rewrite all_chars_app, (id_chars_satisfy _ id_char_ascii).
  rewrite preprocess_plain by reflexivity.
  change (URL.scan_scheme (shorts_prefix ++ id))
    with (Some ("https", "//www.youtube.com/shorts/" ++ id)).
  cbv iota beta.
  change (existsb (String.eqb "https") URL.special_schemes) with true. cbv iota.
  change (URL.parse_special ("//www.youtube.com/shorts/" ++ id))
    with (let '(path, q) := URL.parse_path_query ("/shorts/" ++ id) in
          if snd (URL.percent_decode q) then URL.Unmodelled
          else URL.Parsed {| URL.hostname := "www.youtube.com"; URL.pathname := path;
                             URL.query := q |}).
  rewrite (parse_path_query_shorts Ne). reflexivity.
Qed.

(** [searchParams.get('v')] on the query of a canonical watch URL. *)
Lemma get_v_watch (h p : string) :
  URL.searchParams_get
    {| URL.hostname := h; URL.pathname := p; URL.query := "v=" ++ id |} "v" = Some id.
Proof.
  unfold URL.searchParams_get, URL.searchParams. cbn [URL.query].
  unfold split.
  rewrite split_on_none by exact (id_chars_satisfy _ id_char_no_ampersand).
  cbn [filter is_empty append negb map].
  change (URL.parse_pair (String "v" (String "=" id)))
    with (URL.form_decode "v", URL.form_decode id).
  rewrite form_decode_id. reflexivity.
Qed.

(** Normalising the canonical watch URL of a plain id gives it back. *)
Lemma clean_watch_canonical :
  is_empty id = false ->
  cleanYouTubeUrl (watch_prefix ++ id) = Some (Ok (watch_prefix ++ id) video).
Proof.
  intro Ne. unfold cleanYouTubeUrl. rewrite parse_watch.
  unfold clean_parsed. cbn [URL.hostname URL.pathname].
  change (toLowerCase "www.youtube.com") with "www.youtube.com".
  change (existsb (String.eqb "www.youtube.com") allowed) with true.
  change (String.eqb "www.youtube.com" "youtu.be") with false.
  cbv iota. cbn [negb is_empty].
  change (startsWith "/watch" "/watch") with true. cbv iota.
  rewrite get_v_watch, Ne. reflexivity.
Qed.

Lemma clean_short_link :
  is_empty id = false ->
  cleanYouTubeUrl (short_link id) = Some (Ok (watch_prefix ++ id) video).
Proof.
  intro Ne. unfold cleanYouTubeUrl. rewrite (parse_short_link Ne).
  unfold clean_parsed. cbn [URL.hostname URL.pathname].
  change (toLowerCase "youtu.be") with "youtu.be".
  change (existsb (String.eqb "youtu.be") allowed) with true.
  change (String.eqb "youtu.be" "youtu.be") with true.
  cbv iota. cbn [negb].
  change (strip_leading_slashes ("/" ++ id)) with (drop_while (is_char "/") id).
  rewrite (drop_while_none _ _ (id_chars_satisfy _ id_char_no_solidus)).
  unfold split. rewrite (split_on_none _ _ (id_chars_satisfy _ id_char_no_solidus)).
  cbn [hd]. rewrite Ne. reflexivity.
Qed.

Lemma clean_shorts_canonical :
  is_empty id = false ->
  cleanYouTubeUrl (shorts_prefix ++ id) = Some (Ok (shorts_prefix ++ id) short).
Proof.
  intro Ne. unfold cleanYouTubeUrl. rewrite (parse_shorts Ne).
  unfold clean_parsed. cbn [URL.hostname URL.pathname].
  change (toLowerCase "www.youtube.com") with "www.youtube.com".
  change (existsb (String.eqb "www.youtube.com") allowed) with true.
  change (String.eqb "www.youtube.com" "youtu.be") with false.
  cbv iota. cbn [negb].
  change (is_empty ("/shorts/" ++ id)) with false. cbv iota.
  change (startsWith "/watch" ("/shorts/" ++ id)) with false. cbv iota.
  change (includes "/shorts/" ("/shorts/" ++ id)) with true. cbv iota.
  unfold split.
  change (split_on (is_char "/") ("/shorts/" ++ id))
    with ("" :: "shorts" :: split_on (is_char "/") id).
  rewrite (split_on_none _ _ (id_chars_satisfy _ id_char_no_solidus)).
  cbn [filter is_empty negb]. rewrite Ne. cbn [negb].
  reflexivity.
Qed.

End SafeId.

(** ** Normalisation *)

Lemma is_empty_false (s : string) : s <> "" -> is_empty s = false.
Proof. destruct s; [congruence | reflexivity]. Qed.

(** Every successful result is the canonical URL of a non-empty id. *)
Lemma clean_parsed_shape (u : URL.url) (url : string) (k : kind) :
  clean_parsed u = Ok url k ->
  exists id, is_empty id = false /\ url = canonical k id.
Proof.
  unfold clean_parsed.
  repeat match goal with
  | |- (if ?b then _ else _) = _ -> _ => destruct b eqn:?
  | |- match ?o with Some _ => _ | None => _ end = _ -> _ => destruct o eqn:?
  end; intro H; inversion H; subst; clear H.
  all: try (eexists; split; [eassumption | reflexivity]).
  match goal with
  | N : nth_error _ _ = Some ?s |- _ =>
      exists s; split; [|reflexivity];
      apply nth_error_In, filter_In in N as [_ N];
      apply negb_true_iff in N; exact N
  end.
Qed.

Lemma clean_shape (x url : string) (k : kind) :
  cleanYouTubeUrl x = Some (Ok url k) ->
  exists id, is_empty id = false /\ url = canonical k id.
Proof.
  unfold cleanYouTubeUrl. destruct (URL.parse x) as [u| |]; try discriminate.
  intro H. injection H as H. exact (clean_parsed_shape u url k H).
Qed.

Lemma id_of_canonical (k : kind) (id : string) : id_of k (canonical k id) = id.
Proof. destruct k; reflexivity. Qed.

(** The claim of C7 fails for ids with characters that mean something in
    a URL: the short link of [a&b] gives [watch?v=a&b], the watch form of
    the same id gives [watch?v=a]. *)
Lemma short_link_differs_from_watch :
  ~ (forall id, id <> "" ->
       cleanYouTubeUrl (short_link id) = Some (Ok (watch_prefix ++ id) video) /\
       cleanYouTubeUrl (watch_prefix ++ id) = Some (Ok (watch_prefix ++ id) video)).
Proof.
  intro H. destruct (H "a&b") as [_ W]; [discriminate|].
  vm_compute in W. discriminate W.
Qed.

(** C7, amended. For every non-empty video id made of letters, digits,
    [-] and [_], the short link and the watch form are both normalised to
    the canonical watch URL of that id, with kind video. *)
Theorem short_link_same_as_watch (id : string) :
  id <> "" ->
  all_chars is_id_char id = true ->
  cleanYouTubeUrl (short_link id) = Some (Ok (watch_prefix ++ id) video) /\
  cleanYouTubeUrl (watch_prefix ++ id) = Some (Ok (watch_prefix ++ id) video).
Proof.
  intros Ne H. apply is_empty_false in Ne. split.
  - exact (clean_short_link id H Ne).
  - exact (clean_watch_canonical id H Ne).
Qed.

Lemma short_link_same_as_watch_witness :
  "abc123" <> "" /\ all_chars is_id_char "abc123" = true /\
  cleanYouTubeUrl "https://youtu.be/abc123" =
    Some (Ok "https://www.youtube.com/watch?v=abc123" video) /\
  cleanYouTubeUrl "https://www.youtube.com/watch?v=abc123" =
    Some (Ok "https://www.youtube.com/watch?v=abc123" video).
Proof.
  split; [discriminate|]. split; [reflexivity|].
  apply (short_link_same_as_watch "abc123"); [discriminate | reflexivity].
Defined.

(** The claim of C8 fails: an escaped [#] in the id is decoded into the
    canonical URL, where it starts a fragment the second time round. *)
Lemma normalize_not_idempotent :
  ~ (forall x url k, cleanYouTubeUrl x = Some (Ok url k) ->
       cleanYouTubeUrl url = Some (Ok url k)).
Proof.
  intro H.
  specialize (H "https://www.youtube.com/watch?v=a%23b"
                "https://www.youtube.com/watch?v=a#b" video eq_refl).
  vm_compute in H. discriminate H.
Qed.

(** C8, amended. When normalisation succeeds and the id in the canonical
    URL is made of letters, digits, [-] and [_], normalising the canonical
    URL succeeds and returns the same URL and the same kind. *)
Theorem normalize_idempotent (x url : string) (k : kind) :
  cleanYouTubeUrl x = Some (Ok url k) ->
  all_chars is_id_char (id_of k url) = true ->
  cleanYouTubeUrl url = Some (Ok url k).
Proof.
  intros H S. destruct (clean_shape x url k H) as [id [Ne ->]].
  rewrite id_of_canonical in S. destruct k; cbn [canonical].
  - exact (clean_watch_canonical id S Ne).
  - exact (clean_shorts_canonical id S Ne).
Qed.

Lemma normalize_idempotent_witness :
  cleanYouTubeUrl "https://www.youtube.com/shorts/xyz789?x=1" =
    Some (Ok "https://www.youtube.com/shorts/xyz789" short) /\
  all_chars is_id_char (id_of short "https://www.youtube.com/shorts/xyz789") = true /\
  cleanYouTubeUrl "https://www.youtube.com/shorts/xyz789" =
    Some (Ok "https://www.youtube.com/shorts/xyz789" short).
Proof.
  split; [reflexivity|]. split; [reflexivity|].
  apply (normalize_idempotent "https://www.youtube.com/shorts/xyz789?x=1");
    reflexivity.
Defined.

(** A host outside the allow-list is refused, whatever the path. *)
Example other_site_refused :
  cleanYouTubeUrl "https://vimeo.com/12345" =
    Some (Err "Only YouTube URLs are supported.").
Proof. reflexivity. Qed.

(** Text that is no absolute URL is refused by the parser itself. *)
Example no_scheme_refused :
  cleanYouTubeUrl "youtube.com/watch?v=abc123" = Some (Err "Invalid URL.").
Proof. reflexivity. Qed.

(** ** The loader *)

Lemma find_fresh (id : nat) (l : list timer) (t : timer) (rest : list timer) :
  Forall (fun x => (t_id x < id)%nat) l ->
  t_id t = id ->
  find (fun x => Nat.eqb (t_id x) id) (l ++ t :: rest) = Some t.
Proof.
  intros F E. induction F as [|x l Hx F IH]; cbn.
  - rewrite E, Nat.eqb_refl. reflexivity.
  - replace (t_id x =? id)%nat with false by (symmetry; apply Nat.eqb_neq; lia).
    exact IH.
Qed.

Lemma timers_after_marks (n : nat) (s : state) :
  exists extra, timers (Nat.iter n loader_mark s) = (timers s ++ extra)%list.
Proof.
  induction n as [|n [extra IH]].
  - exists []. rewrite app_nil_r. reflexivity.
  - change (Nat.iter (S n) loader_mark s) with (loader_mark (Nat.iter n loader_mark s)).
    set (s0 := Nat.iter n loader_mark s) in *. clearbody s0.
    unfold loader_mark.
    destruct (armed (loader s0) && (need (loader s0) <=? S (done (loader s0)))%nat); cbn.
    + eexists. rewrite IH, <- app_assoc. reflexivity.
    + exists extra. exact IH.
Qed.

Lemma reveal_revealed (s : state) : revealed (reveal s).
Proof. split; reflexivity. Qed.

(** C3. If no image is registered when [arm()] runs, the preview is
    revealed at once; and [arm()] always schedules a one-second timeout
    whose firing reveals the preview, whatever the counters are and however
    many (or few, even none) of the registered images have settled. *)
Theorem arm_reveals (s : state) :
  fresh_handles s ->
  (need (loader s) = 0%nat -> revealed (loader_arm s)) /\
  exists id,
    timeoutId (loader (loader_arm s)) = Some id /\
    In {| t_id := id; t_repeat := false; t_delay := 1000; t_run := Reveal |}
       (timers (loader_arm s)) /\
    forall n, exists s',
      fire id (Nat.iter n loader_mark (loader_arm s)) = Some s' /\ revealed s'.
Proof.
  intro F. split.
  - intro N. unfold loader_arm. rewrite N. split; reflexivity.
  - exists (next_timer s).
    assert (timers (loader_arm s) =
            (timers s ++ [{| t_id := next_timer s; t_repeat := false;
                             t_delay := 1000; t_run := Reveal |}])%list) as T.
    { unfold loader_arm. destruct (need (loader s) =? 0)%nat; reflexivity. }
    split; [|split].
    + unfold loader_arm. destruct (need (loader s) =? 0)%nat; reflexivity.
    + rewrite T. apply in_or_app. right. left. reflexivity.
    + intro n. destruct (timers_after_marks n (loader_arm s)) as [extra E].
      unfold fire. rewrite E, T, <- app_assoc. cbn [app].
      rewrite (find_fresh (next_timer s) (timers s)
                 {| t_id := next_timer s; t_repeat := false;
                    t_delay := 1000; t_run := Reveal |} extra F eq_refl).
      cbn [t_repeat t_run].
      eexists. split; [reflexivity|]. apply reveal_revealed.
Qed.

Lemma arm_reveals_witness :
  fresh_handles init /\ revealed (loader_arm init) /\
  exists s', fire 1 (loader_arm init) = Some s' /\ revealed s'.
Proof.
  assert (fresh_handles init) as F by constructor.
  split; [exact F|].
  destruct (arm_reveals init F) as [R [id [I [_ W]]]].
  split; [apply R; reflexivity|].
  injection I as <-. exact (W 0%nat).
Defined.

(** A probe that names no thumbnail and no avatar: nothing is registered,
    the preview shows as soon as the answer is handled, with the avatar
    drawn from the initial of "Unknown". *)
Example probe_without_images :
  exists s,
    after [TypeUrl "https://youtu.be/first"; Submit; ProbeReply probe_ok] = Some s /\
    need (loader s) = 0%nat /\ revealed s /\
    avatar_src (dom s) = Some (Initial "U") /\
    pending s = [ReqStart (Some "https://www.youtube.com/watch?v=first")].
Proof.
  eexists. unfold revealed.
  repeat match goal with
  | |- _ /\ _ => split
  end; vm_compute; reflexivity.
Qed.

(** ** Cancel *)

Lemma settle_some_pending (p : request -> bool) (s : state) (k : state -> state) (s' : state) :
  match settle p (pending s) with
  | Some (_, rest) => Some (k (with_pending rest s))
  | None => None
  end = Some s' ->
  exists rest, s' = k (with_pending rest s).
Proof.
  destruct (settle p (pending s)) as [[r rest]|]; [|discriminate].
  intro H. injection H as <-. exists rest. reflexivity.
Qed.

(** C9. Neither the click on Cancel nor any outcome of the cancel request
    (acknowledged, refused, failed) changes the job id, the retained URL,
    the polling timer or the page; the outcome only adds one toast. *)
Theorem cancel_changes_nothing (s s' : state) :
  (step s ClickCancel = Some s' -> same_job s s' /\ toasts s' = toasts s) /\
  (forall job r, step s (CancelReply job r) = Some s' ->
     same_job s s' /\ exists t m, toasts s' = (toasts s ++ [(t, m)])%list).
Proof.
  split.
  - cbn. unfold cancel_click. intro H. injection H as <-.
    destruct (currentJobId s) as [job|]; [destruct (is_empty job)|];
      repeat split; reflexivity.
  - intros job r H. cbn in H.
    apply settle_some_pending in H as [rest ->].
    destruct r as [m|[[] msg]]; cbn;
      (split; [repeat split; reflexivity | eexists; eexists; reflexivity]).
Qed.

Lemma cancel_changes_nothing_witness :
  exists s s',
    after (first_job_polling ++ [ClickCancel])%list = Some s /\
    step s (CancelReply "job-1" (Failed "Failed to fetch")) = Some s' /\
    same_job s s' /\ exists t m, toasts s' = (toasts s ++ [(t, m)])%list.
Proof.
  destruct (after (first_job_polling ++ [ClickCancel])%list) as [s|] eqn:E;
    [|vm_compute in E; discriminate E].
  assert (exists s', step s (CancelReply "job-1" (Failed "Failed to fetch")) = Some s')
    as [s' E'].
  { vm_compute in E. injection E as <-. eexists. vm_compute. reflexivity. }
  exists s, s'. split; [reflexivity|]. split; [exact E'|].
  destruct (cancel_changes_nothing s s') as [_ C]. exact (C _ _ E').
Defined.

(** ** Polling *)

Lemma live_on_dom (f : DOM -> DOM) (s : state) (id : nat) :
  live id (on_dom f s) = live id s.
Proof. reflexivity. Qed.

Lemma live_showToast (t : toast_type) (m : string) (s : state) (id : nat) :
  live id (showToast t m s) = live id s.
Proof. reflexivity. Qed.

Lemma pending_on_dom (f : DOM -> DOM) (s : state) :
  pending (on_dom f s) = pending s.
Proof. reflexivity. Qed.

Lemma pending_showToast (t : toast_type) (m : string) (s : state) :
  pending (showToast t m s) = pending s.
Proof. reflexivity. Qed.

Lemma pending_clear_timer (h : option nat) (s : state) :
  pending (clear_timer h s) = pending s.
Proof. destruct h; reflexivity. Qed.

Lemma pollTimer_on_dom (f : DOM -> DOM) (s : state) :
  pollTimer (on_dom f s) = pollTimer s.
Proof. reflexivity. Qed.

Create Rewrite HintDb frame.
#[local] Hint Rewrite live_on_dom live_showToast pending_on_dom pending_showToast
  pending_clear_timer pollTimer_on_dom : frame.

Lemma not_live_after_clear (id : nat) (s : state) :
  live id (clear_timer (Some id) s) = false.
Proof.
  unfold live, clear_timer. cbn.
  induction (timers s) as [|t l IH]; cbn; [reflexivity|].
  destruct (t_id t =? id)%nat eqn:E; cbn; [exact IH|].
  rewrite E. exact IH.
Qed.

(** Once an outcome stops the polling, the timer registered in [pollTimer]
    is not live any more, and no request has been issued in its place. *)
Lemma poll_reply_clears_pollTimer (r : reply payload) (s : state) (id : nat) :
  stops_polling r = true ->
  pollTimer s = Some id ->
  live id (poll_reply r s) = false /\ pending (poll_reply r s) = pending s.
Proof.
  intros St P. unfold poll_reply.
  assert (forall m, live id (poll_catch m s) = false /\
                    pending (poll_catch m s) = pending s) as C.
  { intro m. unfold poll_catch, clearInterval. autorewrite with frame.
    rewrite P. split; [|reflexivity]. exact (not_live_after_clear id s). }
  destruct r as [m|d]; [apply C|].
  destruct (p_ok d) eqn:O; [|apply C].
  cbn in St. rewrite O in St. cbn in St.
  unfold poll_apply.
  set (s1 := match p_started_at_ist d with Some _ => _ | None => _ end).
  set (s2 := match p_status d with Some _ => _ | None => _ end).
  set (s3 := match p_expires_at_ist d with Some _ => _ | None => _ end).
  assert (pollTimer s1 = Some id /\ pending s1 = pending s) as [P1 Q1].
  { subst s1. destruct (p_started_at_ist d) as [t|]; [destruct (is_empty t)|];
      split; assumption || reflexivity. }
  assert (pollTimer s2 = Some id /\ pending s2 = pending s) as [P2 Q2].
  { subst s2. destruct (p_status d) as [t|]; [destruct (negb (is_empty t) && _)|];
      split; assumption || reflexivity. }
  assert (pollTimer s3 = Some id /\ pending s3 = pending s) as [P3 Q3].
  { subst s3. destruct (p_expires_at_ist d) as [t|]; [destruct (negb (is_empty t) && _)|];
      split; assumption || reflexivity. }
  clearbody s3. clear s1 s2 P1 Q1 P2 Q2.
  unfold clearInterval.
  destruct (status_is d "finished");
    [|destruct (status_is d "expired");
      [|destruct (status_is d "cancelled");
        [|destruct (status_is d "error"); [|discriminate St]]]].
  all: autorewrite with frame; rewrite P3; split; [|exact Q3].
  all: apply (not_live_after_clear id).
Qed.

(** One download from queued to finished: the bar shows 0%, 40%, the
    floor of 99% while processing, then 100%; the shimmer is on until the
    status leaves queued; at the end the timer is cleared and the result
    panel is shown. *)
Example download_runs_to_the_end :
  exists s0 s,
    after first_job_started = Some s0 /\
    pwrap_skel (dom s0) = true /\ live 2 s0 = true /\
    bar_widths s0 whole_download =
      ["0%"; "0%"; "0%"; "40%"; "40%"; "99%"; "99%"; "100%"] /\
    run s0 whole_download = Some s /\
    pwrap_skel (dom s) = false /\ live 2 s = false /\
    hidden (dom s) resultBlock = false /\ pending s = [].
Proof.
  do 2 eexists.
  repeat match goal with
  | |- _ /\ _ => split
  end; vm_compute; reflexivity.
Qed.

(** ** Timers across jobs *)


Lemma fresh_on_dom (f : DOM -> DOM) (s : state) :
  fresh_handles s -> fresh_handles (on_dom f s).
Proof. exact (fun H => H). Qed.

Lemma fresh_showToast (t : toast_type) (m : string) (s : state) :
  fresh_handles s -> fresh_handles (showToast t m s).
Proof. exact (fun H => H). Qed.

Lemma fresh_clear_timer (h : option nat) (s : state) :
  fresh_handles s -> fresh_handles (clear_timer h s).
Proof.
  unfold fresh_handles. destruct h as [id|]; cbn; [|exact (fun H => H)].
  intro F. apply Forall_forall. intros t I. apply filter_In in I as [I _].
  rewrite Forall_forall in F. exact (F t I).
Qed.

Lemma fresh_set_timer (r : bool) (d : nat) (c : callback) (s : state) :
  fresh_handles s -> fresh_handles (snd (set_timer r d c s)).
Proof.
  unfold fresh_handles. cbn. intro F. apply Forall_app. split.
  - apply (Forall_impl _ (fun t H => Nat.lt_lt_succ_r _ _ H) F).
  - constructor; [cbn; lia | constructor].
Qed.

Lemma fresh_loader_arm (s : state) : fresh_handles s -> fresh_handles (loader_arm s).
Proof.
  intro F. unfold loader_arm.
  destruct (need (loader s) =? 0)%nat;
    exact (fresh_set_timer false 1000 Reveal _ F).
Qed.

Lemma fresh_loader_mark (s : state) : fresh_handles s -> fresh_handles (loader_mark s).
Proof.
  intro F. unfold loader_mark.
  destruct (armed (loader s) && _); [|exact F].
  exact (fresh_set_timer false 60 Reveal _ F).
Qed.

Lemma fresh_start_interval (s : state) (t : toast_type) (m : string) :
  fresh_handles s ->
  fresh_handles (let '(id, s) := setInterval PollTick 900 s in
                 showToast t m (with_pollTimer (Some id) s)).
Proof. exact (fresh_set_timer true 900 PollTick s). Qed.

Lemma fresh_poll_reply (r : reply payload) (s : state) :
  fresh_handles s -> fresh_handles (poll_reply r s).
Proof.
  intro F. unfold poll_reply, poll_catch, poll_apply, clearInterval.
  repeat match goal with
  | |- context [match ?x with Failed _ => _ | Answer _ => _ end] => destruct x
  | |- context [match ?x with Some _ => _ | None => _ end] => destruct x
  | |- context [if ?b then _ else _] => destruct b
  end.
  all: repeat first [ exact F | apply fresh_on_dom | apply fresh_showToast
                   | apply fresh_clear_timer ].
Qed.

Lemma fresh_step (s s' : state) (e : event) :
  step s e = Some s' -> fresh_handles s -> fresh_handles s'.
Proof.
  assert (forall p k,
    (forall x, fresh_handles x -> fresh_handles (k x)) ->
    match settle p (pending s) with
    | Some (_, rest) => Some (k (with_pending rest s))
    | None => None
    end = Some s' -> fresh_handles s -> fresh_handles s') as A.
  { intros p k K H F. apply settle_some_pending in H as [rest ->]. apply K, F. }
  destruct e; cbn [step]; try (intro H; injection H as <-; intro F).
  - exact F.
  - unfold submit.
    destruct (startBtn_disabled (dom s)); [intro H; injection H as <-; exact (fun F => F)|].
    destruct (cleanYouTubeUrl _) as [[url k|e]|]; try discriminate;
      intro H; injection H as <-; exact (fun F => F).
  - apply A. intros x F. unfold probe_reply.
    destruct r as [m|[[] mt er]]; try exact F.
    cbn [pr_ok pr_meta].
    apply fresh_loader_arm.
    assert (fresh_handles (loader_reset x)) as R by (apply fresh_clear_timer, F).
    destruct (falsy (m_thumbnail _)); destruct (falsy (m_channel_avatar _)); exact R.
  - apply A. intros x F. unfold start_reply.
    destruct (start_failure _ r); [exact F|].
    apply (fresh_start_interval _ info "Downloading started."), F.
  - unfold cancel_click. destruct (currentJobId s) as [j|]; [destruct (is_empty j)|]; exact F.
  - apply A. intros x F. unfold cancel_reply. destruct r as [m|[[] m]]; exact F.
  - exact F.
  - unfold retry_click. destruct (falsy (currentCleanUrl s)); exact F.
  - apply A. intros x F. unfold retry_reply.
    destruct (start_failure _ r); [exact F|].
    apply (fresh_start_interval _ info "Retry started."), F.
  - unfold fire. destruct (find _ (timers s)) as [t|]; [|discriminate].
    intro H; injection H as <-; intro F.
    assert (fresh_handles (if t_repeat t then s else clear_timer (Some id) s)) as F'
      by (destruct (t_repeat t); [exact F | apply fresh_clear_timer, F]).
    destruct (t_run t); [|exact F'].
    unfold poll. destruct (currentJobId _) as [j|]; [destruct (is_empty j)|]; exact F'.
  - apply A. intros x. apply fresh_poll_reply.
  - intros H F. destruct (thumb_marks (dom s)); injection H as <-;
      [apply fresh_loader_mark|]; exact F.
  - intros H F. destruct (avatar_fallback (dom s)); injection H as <-; exact F.
Qed.

Lemma fresh_run (es : list event) : forall s s',
  run s es = Some s' -> fresh_handles s -> fresh_handles s'.
Proof.
  induction es as [|e es IH]; cbn; intros s s' H F.
  - injection H as <-. exact F.
  - destruct (step s e) as [s1|] eqn:E; [|discriminate].
    exact (IH s1 s' H (fresh_step s s1 e E F)).
Qed.

(** The hypothesis of [arm_reveals] holds wherever the page can get to. *)
Lemma fresh_reachable (es : list event) (s : state) :
  after es = Some s -> fresh_handles s.
Proof. intro H. apply (fresh_run es init s H). constructor. Qed.

(** C1 fails on the code: [resetUI] clears the job id and leaves the
    interval timer alone.  When a second video is submitted while the first
    job is polling, the first job's timer (handle 2) is still live after the
    job id is cleared and after the second job has started next to its own
    timer (handle 4), and the late answer to the first job's poll is written
    to the progress bar of the second job. *)
Theorem new_job_leaves_old_timer_running :
  exists s1 s2 s3 s4,
    after first_job_polling = Some s1 /\
    currentJobId s1 = Some "job-1" /\ pollTimer s1 = Some 2%nat /\
    live 2 s1 = true /\ pending s1 = [ReqProgress "job-1" 2] /\
    run s1 second_submit = Some s2 /\
    currentJobId s2 = None /\ live 2 s2 = true /\
    run s2 second_job_starts = Some s3 /\
    currentJobId s3 = Some "job-2" /\ pollTimer s3 = Some 4%nat /\
    live 2 s3 = true /\ live 4 s3 = true /\
    text (dom s3) bar_style_width = "0%" /\
    run s3 stale_answer = Some s4 /\
    currentJobId s4 = Some "job-2" /\
    text (dom s4) bar_style_width = "40%".
Proof.
  do 4 eexists.
  repeat match goal with
  | |- _ /\ _ => split
  end; vm_compute; reflexivity.
Qed.

(** C4 fails on the code, through the defect of C1: [poll] clears the timer
    named by [pollTimer], which after a second submission is not the timer
    that drove the poll.  Here the first job's timer (handle 2) polls the
    second job and is answered [finished]: handle 4 is cleared, handle 2
    stays live, and its next tick polls the finished job again. *)
Theorem terminal_answer_leaves_driving_timer :
  exists s s' s'',
    after (first_job_started ++ second_submit ++ second_job_starts ++ [Fire 2])%list
      = Some s /\
    currentJobId s = Some "job-2" /\ pollTimer s = Some 4%nat /\
    pending s = [ReqProgress "job-2" 2] /\
    stops_polling (Answer (progress_of "finished" 100)) = true /\
    step s (ProgressReply "job-2" 2 (Answer (progress_of "finished" 100))) = Some s' /\
    live 4 s' = false /\ live 2 s' = true /\
    step s' (Fire 2) = Some s'' /\
    pending s'' = [ReqProgress "job-2" 2].
Proof.
  do 3 eexists.
  repeat match goal with
  | |- _ /\ _ => split
  end; vm_compute; reflexivity.
Qed.

(** ** More of the normaliser *)

Lemma string_app_assoc (a b c : string) : (a ++ b) ++ c = a ++ b ++ c.
Proof. induction a as [|x a IH]; cbn; [reflexivity | rewrite IH; reflexivity]. Qed.

Lemma span_app_stop (p : ascii -> bool) (a b : string) (c : ascii) :
  all_chars p a = true -> p c = false ->
  span p (a ++ String c b) = (a, String c b).
Proof.
  intros A C. induction a as [|x a IH]; cbn.
  - rewrite C. reflexivity.
  - cbn in A. apply andb_true_iff in A as [X A].
    rewrite X, (IH A). reflexivity.
Qed.

Lemma split_on_app (sep : ascii -> bool) (a b : string) (c : ascii) :
  all_chars (fun x => negb (sep x)) a = true -> sep c = true ->
  split_on sep (a ++ String c b) = a :: split_on sep b.
Proof.
  intros A C. induction a as [|x a IH]; cbn.
  - rewrite C. reflexivity.
  - cbn in A. apply andb_true_iff in A as [X A].
    apply negb_true_iff in X. rewrite X, (IH A). reflexivity.
Qed.

Lemma preprocess_visible (s : string) :
  all_chars (fun c => negb (URL.is_c0_or_space c)) s = true ->
  all_chars (fun c => negb (URL.is_tab_or_newline c)) s = true ->
  URL.preprocess s = s.
Proof.
  intros V N. unfold URL.preprocess.
  rewrite (trim_with_none _ _ V). apply remove_chars_none, N.
Qed.

Lemma link_char_ascii c : is_link_char c = true -> URL.is_ascii c = true.
Proof. revert c. by_cases_on_char. Qed.

Lemma link_char_visible c :
  is_link_char c = true -> negb (URL.is_c0_or_space c) = true.
Proof. revert c. by_cases_on_char. Qed.

Lemma link_char_no_newline c :
  is_link_char c = true -> negb (URL.is_tab_or_newline c) = true.
Proof. revert c. by_cases_on_char. Qed.

Lemma id_char_link c : is_id_char c = true -> is_link_char c = true.
Proof. revert c. by_cases_on_char. Qed.

Lemma param_char_link c : is_param_char c = true -> is_link_char c = true.
Proof. revert c. by_cases_on_char. Qed.

Lemma segment_char_link c : is_segment_char c = true -> is_link_char c = true.
Proof. revert c. by_cases_on_char. Qed.

Lemma id_char_param c : is_id_char c = true -> is_param_char c = true.
Proof. revert c. by_cases_on_char. Qed.

Lemma id_char_segment c : is_id_char c = true -> is_segment_char c = true.
Proof. revert c. by_cases_on_char. Qed.

Lemma param_char_in_query c :
  is_param_char c = true -> negb (URL.one_of "#" c) = true.
Proof. revert c. by_cases_on_char. Qed.

Lemma param_char_query_plain c :
  is_param_char c = true -> negb (URL.special_query_set c) = true.
Proof. revert c. by_cases_on_char. Qed.

Lemma param_char_no_percent c :
  is_param_char c = true -> negb (Ascii.eqb c "%") = true.
Proof. revert c. by_cases_on_char. Qed.

Lemma segment_char_in_path c :
  is_segment_char c = true -> negb (URL.one_of "?#" c) = true.
Proof. revert c. by_cases_on_char. Qed.

Lemma segment_char_split c :
  is_segment_char c = true ->
  if URL.is_slash c then c = "/"%char else is_id_char c = true.
Proof.
  destruct c as [[] [] [] [] [] [] [] []]; intro H;
    solve [discriminate H | reflexivity].
Qed.

(** The segments of plain path text are made of id characters. *)
Lemma split_segments (p : string) :
  all_chars is_segment_char p = true ->
  Forall (fun seg => all_chars is_id_char seg = true) (split_on URL.is_slash p).
Proof.
  induction p as [|c p IH]; cbn [split_on all_chars]; intro H.
  - repeat constructor.
  - apply andb_true_iff in H as [C H]. specialize (IH H).
    pose proof (segment_char_split c C) as S.
    destruct (URL.is_slash c).
    + constructor; [reflexivity | exact IH].
    + destruct (split_on URL.is_slash p) as [|x xs].
      * repeat constructor. cbn [all_chars]. rewrite S. reflexivity.
      * inversion IH; subst. constructor; [|assumption].
        cbn [all_chars]. rewrite S. assumption.
Qed.

(** ... and written after slashes they give the text back. *)
Lemma serialize_split (p : string) :
  all_chars is_segment_char p = true ->
  URL.serialize_path (split_on URL.is_slash p) = "/" ++ p.
Proof.
  induction p as [|c p IH]; cbn [split_on all_chars]; intro H; [reflexivity|].
  apply andb_true_iff in H as [C H]. specialize (IH H).
  pose proof (segment_char_split c C) as S.
  destruct (URL.is_slash c).
  - subst c. cbn [URL.serialize_path]. rewrite IH. reflexivity.
  - destruct (split_on URL.is_slash p) as [|x xs]; cbn in *.
    + discriminate IH.
    + injection IH as IH. rewrite IH. reflexivity.
Qed.

(** The path state keeps plain segments as they are. *)
Lemma path_segments_plain (segs : list string) : forall acc,
  Forall (fun seg => all_chars is_id_char seg = true) segs ->
  URL.path_segments segs acc = (rev acc ++ segs)%list.
Proof.
  induction segs as [|seg segs IH]; intros acc F; cbn [URL.path_segments].
  - rewrite app_nil_r. reflexivity.
  - inversion F as [|? ? S F']; subst.
    rewrite (percent_encode_none _ _ (all_chars_impl _ _ _ id_char_path_plain S)).
    assert (URL.is_single_dot seg = false /\ URL.is_double_dot seg = false) as [D1 D2].
    { destruct seg as [|c r]; [split; reflexivity|].
      apply (is_dot_segment_id (String c r) S). reflexivity. }
    rewrite D1, D2, (IH _ F'). cbn [rev]. rewrite <- app_assoc. reflexivity.
Qed.

Lemma parse_path_query_plain (p : string) :
  all_chars is_segment_char p = true ->
  URL.parse_path_query ("/" ++ p) = ("/" ++ p, "").
Proof.
  intro P. unfold URL.parse_path_query. cbn [append].
  change (URL.is_slash "/") with true. cbv iota.
  rewrite (span_all _ _ (all_chars_impl _ _ _ segment_char_in_path P)).
  rewrite (path_segments_plain _ [] (split_segments p P)). cbn [rev app].
  rewrite (serialize_split p P). reflexivity.
Qed.

Lemma parse_path_query_with_query (p q : string) :
  all_chars is_segment_char p = true ->
  all_chars is_param_char q = true ->
  URL.parse_path_query ("/" ++ p ++ "?" ++ q) = ("/" ++ p, q).
Proof.
  intros P Q. unfold URL.parse_path_query. cbn [append].
  change (URL.is_slash "/") with true. cbv iota.
  rewrite (span_app_stop _ p q "?" (all_chars_impl _ _ _ segment_char_in_path P) eq_refl).
  rewrite (path_segments_plain _ [] (split_segments p P)). cbn [rev app].
  rewrite (serialize_split p P).
  rewrite (span_all _ _ (all_chars_impl _ _ _ param_char_in_query Q)).
  rewrite (percent_encode_none _ _ (all_chars_impl _ _ _ param_char_query_plain Q)).
  reflexivity.
Qed.

Lemma percent_decode_params (q : string) :
  all_chars is_param_char q = true -> URL.percent_decode q = (q, false).
Proof.
  intro Q. apply percent_decode_none, (all_chars_impl _ _ _ param_char_no_percent Q).
Qed.

(** An https link to an allowed host, with plain text after the host. *)
Lemma parse_https (h tail : string) :
  In h allowed ->
  all_chars is_link_char tail = true ->
  URL.parse ("https://" ++ h ++ "/" ++ tail) =
  let '(path, q) := URL.parse_path_query ("/" ++ tail) in
  if snd (URL.percent_decode q) then URL.Unmodelled
  else URL.Parsed {| URL.hostname := h; URL.pathname := path; URL.query := q |}.
Proof.
  intros H T. unfold URL.parse.
  assert (all_chars URL.is_ascii ("https://" ++ h ++ "/" ++ tail) = true) as A.
  { rewrite !all_chars_app, (all_chars_impl _ _ _ link_char_ascii T).
    destruct H as [<-|[<-|[<-|[<-|[<-|[]]]]]]; reflexivity. }
  assert (URL.preprocess ("https://" ++ h ++ "/" ++ tail) = "https://" ++ h ++ "/" ++ tail) as P.
  { apply preprocess_visible; rewrite !all_chars_app.
    - rewrite (all_chars_impl _ _ _ link_char_visible T).
      destruct H as [<-|[<-|[<-|[<-|[<-|[]]]]]]; reflexivity.
    - rewrite (all_chars_impl _ _ _ link_char_no_newline T).
      destruct H as [<-|[<-|[<-|[<-|[<-|[]]]]]]; reflexivity. }
  rewrite A, P. cbn [negb].
  change (URL.scan_scheme ("https://" ++ h ++ "/" ++ tail))
    with (Some ("https", "//" ++ h ++ "/" ++ tail)).
  cbv iota beta.
  change (existsb (String.eqb "https") URL.special_schemes) with true. cbv iota.
  destruct H as [<-|[<-|[<-|[<-|[<-|[]]]]]]; reflexivity.
Qed.

Lemma in_site_hosts (h : string) :
  In h site_hosts ->
  In h allowed /\ toLowerCase h = h /\
  existsb (String.eqb h) allowed = true /\ String.eqb h "youtu.be" = false.
Proof.
  intros [<-|[<-|[<-|[<-|[]]]]]; (split; [cbn; tauto|]); repeat split; reflexivity.
Qed.

Lemma plain_params_chars (q : option string) :
  plain_params q = true -> all_chars is_param_char (more_params q) = true.
Proof. destruct q as [q|]; cbn; [|reflexivity]. exact (fun H => H). Qed.

Lemma plain_trailer_chars (t : trailer) :
  plain_trailer t = true -> all_chars is_link_char (trailer_text t) = true.
Proof.
  destruct t as [|q|p]; cbn; intro H; [reflexivity| |].
  - exact (all_chars_impl _ _ _ param_char_link H).
  - exact (all_chars_impl _ _ _ segment_char_link H).
Qed.

(** [searchParams.get('v')] when the query starts with [v=<id>]. *)
Lemma get_v_first (h p id : string) (q : option string) :
  all_chars is_id_char id = true ->
  URL.searchParams_get
    {| URL.hostname := h; URL.pathname := p;
       URL.query := "v=" ++ id ++ more_params q |} "v" = Some id.
Proof.
  intro I. destruct q as [q|]; cbn [more_params].
  - unfold URL.searchParams_get, URL.searchParams, split. cbn [URL.query].
    change ("v=" ++ id ++ "&" ++ q) with (("v=" ++ id) ++ String "&" q).
    rewrite split_on_app;
      [|exact (all_chars_impl _ _ _ id_char_no_ampersand I) | reflexivity].
    cbn [filter is_empty append negb map].
    change (URL.parse_pair (String "v" (String "=" id)))
      with (URL.form_decode "v", URL.form_decode id).
    rewrite (form_decode_id id I). reflexivity.
  - rewrite append_empty_r. apply (get_v_watch id I).
Qed.

(** X1. A watch link on any host of the allow-list but the short-link
    one, with a plain id and possibly more parameters after it, is
    normalised to the canonical watch URL of the id: the host is replaced
    by [www.youtube.com] and the other parameters are dropped. *)
Theorem watch_link_any_host (h id : string) (q : option string) :
  In h site_hosts ->
  id <> "" ->
  all_chars is_id_char id = true ->
  plain_params q = true ->
  cleanYouTubeUrl ("https://" ++ h ++ "/watch?v=" ++ id ++ more_params q) =
  Some (Ok (watch_prefix ++ id) video).
Proof.
  intros H Ne I Q. apply is_empty_false in Ne.
  destruct (in_site_hosts h H) as [A [L [E Y]]].
  pose proof (plain_params_chars q Q) as Q'.
  assert (all_chars is_param_char ("v=" ++ id ++ more_params q) = true) as P.
  { cbn [append all_chars]. rewrite all_chars_app, Q'.
    rewrite (all_chars_impl _ _ _ id_char_param I). reflexivity. }
  unfold cleanYouTubeUrl.
  change ("https://" ++ h ++ "/watch?v=" ++ id ++ more_params q)
    with ("https://" ++ h ++ "/" ++ "watch" ++ "?" ++ "v=" ++ id ++ more_params q).
  rewrite parse_https;
    [|exact A
     |cbn [append all_chars]; exact (all_chars_impl _ _ _ param_char_link P)].
  rewrite (parse_path_query_with_query "watch" _ eq_refl P).
  change ("/" ++ "watch") with "/watch".
  rewrite (percent_decode_params _ P). cbn [snd].
  unfold clean_parsed. cbn [URL.hostname URL.pathname].
  rewrite L, E, Y. cbn [negb is_empty].
  change (startsWith "/watch" "/watch") with true. cbv iota.
  rewrite (get_v_first h "/watch" id q I), Ne. reflexivity.
Qed.

Lemma watch_link_any_host_witness :
  In "music.youtube.com" site_hosts /\ "dQw4w9WgXcQ" <> "" /\
  all_chars is_id_char "dQw4w9WgXcQ" = true /\
  plain_params (Some "list=PL123&t=42") = true /\
  cleanYouTubeUrl "https://music.youtube.com/watch?v=dQw4w9WgXcQ&list=PL123&t=42" =
  Some (Ok "https://www.youtube.com/watch?v=dQw4w9WgXcQ" video).
Proof.
  assert (In "music.youtube.com" site_hosts) as H by (cbn; tauto).
  split; [exact H|]. split; [discriminate|]. split; [reflexivity|].
  split; [reflexivity|].
  apply (watch_link_any_host "music.youtube.com" "dQw4w9WgXcQ" (Some "list=PL123&t=42") H);
    [discriminate | reflexivity | reflexivity].
Defined.

Lemma split_id_then (id : string) (t : trailer) :
  all_chars is_id_char id = true ->
  exists more, split "/" (id ++ match t with
                                | PathTrailer p => "/" ++ p
                                | _ => ""
                                end) = id :: more.
Proof.
  intro I. unfold split. destruct t as [|q|p].
  - rewrite append_empty_r, (split_on_none _ _ (all_chars_impl _ _ _ id_char_no_solidus I)).
    exists []. reflexivity.
  - rewrite append_empty_r, (split_on_none _ _ (all_chars_impl _ _ _ id_char_no_solidus I)).
    exists []. reflexivity.
  - change (id ++ "/" ++ p) with (id ++ String "/" p).
    rewrite split_on_app;
      [|exact (all_chars_impl _ _ _ id_char_no_solidus I) | reflexivity].
    eexists. reflexivity.
Qed.

(** The path and query the parser finds after [/<pre><id>] and a trailer. *)
Lemma parse_path_query_trailer (pre id : string) (t : trailer) :
  all_chars is_segment_char pre = true ->
  all_chars is_id_char id = true ->
  plain_trailer t = true ->
  exists q,
    URL.parse_path_query ("/" ++ pre ++ id ++ trailer_text t) =
      ("/" ++ pre ++ id ++ match t with
                           | PathTrailer p => "/" ++ p
                           | _ => ""
                           end, q) /\
    snd (URL.percent_decode q) = false.
Proof.
  intros P I T.
  assert (all_chars is_segment_char (pre ++ id) = true) as PI
    by (rewrite all_chars_app, P; exact (all_chars_impl _ _ _ id_char_segment I)).
  destruct t as [|q|p]; cbn [trailer_text plain_trailer] in *.
  - exists "". rewrite !append_empty_r. split; [|reflexivity].
    apply parse_path_query_plain, PI.
  - exists q. rewrite append_empty_r. split.
    + pose proof (parse_path_query_with_query (pre ++ id) q PI T) as E.
      rewrite string_app_assoc in E. exact E.
    + rewrite (percent_decode_params q T). reflexivity.
  - exists "". split; [|reflexivity].
    pose proof (parse_path_query_plain ((pre ++ id) ++ "/" ++ p)) as E.
    rewrite !string_app_assoc in E. apply E.
    rewrite !all_chars_app, P, (all_chars_impl _ _ _ id_char_segment I). exact T.
Qed.

(** X2. A shorts link on any host of the allow-list but the short-link
    one, with a plain id followed by nothing, a query or more path, is
    normalised to the canonical shorts URL of the id. *)
Theorem shorts_link_any_host (h id : string) (t : trailer) :
  In h site_hosts ->
  id <> "" ->
  all_chars is_id_char id = true ->
  plain_trailer t = true ->
  cleanYouTubeUrl ("https://" ++ h ++ "/shorts/" ++ id ++ trailer_text t) =
  Some (Ok (shorts_prefix ++ id) short).
Proof.
  intros H Ne I T. apply is_empty_false in Ne.
  destruct (in_site_hosts h H) as [A [L [E Y]]].
  unfold cleanYouTubeUrl.
  change ("https://" ++ h ++ "/shorts/" ++ id ++ trailer_text t)
    with ("https://" ++ h ++ "/" ++ "shorts/" ++ id ++ trailer_text t).
  rewrite parse_https;
    [|exact A
     |rewrite !all_chars_app, (all_chars_impl _ _ _ id_char_link I),
        (plain_trailer_chars t T); reflexivity].
  destruct (parse_path_query_trailer "shorts/" id t eq_refl I T) as [q [-> ->]].
  unfold clean_parsed. cbn [URL.hostname URL.pathname].
  rewrite L, E, Y. cbn [negb].
  set (rest := match t with PathTrailer p => "/" ++ p | _ => "" end).
  change (is_empty ("/" ++ "shorts/" ++ id ++ rest)) with false. cbv iota.
  change (startsWith "/watch" ("/" ++ "shorts/" ++ id ++ rest)) with false. cbv iota.
  change (includes "/shorts/" ("/" ++ "shorts/" ++ id ++ rest)) with true. cbv iota.
  change (split "/" ("/" ++ "shorts/" ++ id ++ rest))
    with ("" :: "shorts" :: split "/" (id ++ rest)).
  subst rest. destruct (split_id_then id t I) as [more ->].
  cbn [filter is_empty negb]. rewrite Ne. reflexivity.
Qed.

Lemma shorts_link_any_host_witness :
  In "m.youtube.com" site_hosts /\ "xyz789" <> "" /\
  all_chars is_id_char "xyz789" = true /\
  plain_trailer (QueryTrailer "feature=share") = true /\
  cleanYouTubeUrl "https://m.youtube.com/shorts/xyz789?feature=share" =
  Some (Ok "https://www.youtube.com/shorts/xyz789" short).
Proof.
  assert (In "m.youtube.com" site_hosts) as H by (cbn; tauto).
  split; [exact H|]. split; [discriminate|]. split; [reflexivity|].
  split; [reflexivity|].
  apply (shorts_link_any_host "m.youtube.com" "xyz789" (QueryTrailer "feature=share") H);
    [discriminate | reflexivity | reflexivity].
Defined.

Lemma drop_while_head (p : ascii -> bool) (a b : string) :
  is_empty a = false ->
  all_chars (fun c => negb (p c)) a = true ->
  drop_while p (a ++ b) = a ++ b.
Proof.
  destruct a as [|c a]; [discriminate|]. intros _ H. cbn in *.
  apply andb_true_iff in H as [C _]. apply negb_true_iff in C.
  rewrite C. reflexivity.
Qed.

(** X3. A short link with a plain id followed by nothing, a query (a
    start time, a share token) or more path is normalised to the canonical
    watch URL of the id: whatever follows the id is dropped. *)
Theorem short_link_trailer_dropped (id : string) (t : trailer) :
  id <> "" ->
  all_chars is_id_char id = true ->
  plain_trailer t = true ->
  cleanYouTubeUrl (short_link (id ++ trailer_text t)) =
  Some (Ok (watch_prefix ++ id) video).
Proof.
  intros Ne I T. apply is_empty_false in Ne.
  unfold cleanYouTubeUrl, short_link.
  change ("https://youtu.be/" ++ id ++ trailer_text t)
    with ("https://" ++ "youtu.be" ++ "/" ++ "" ++ id ++ trailer_text t).
  rewrite parse_https;
    [|cbn; tauto
     |rewrite !all_chars_app, (all_chars_impl _ _ _ id_char_link I),
        (plain_trailer_chars t T); reflexivity].
  destruct (parse_path_query_trailer "" id t eq_refl I T) as [q [-> ->]].
  unfold clean_parsed. cbn [URL.hostname URL.pathname].
  change (toLowerCase "youtu.be") with "youtu.be".
  change (existsb (String.eqb "youtu.be") allowed) with true.
  change (String.eqb "youtu.be" "youtu.be") with true.
  cbv iota. cbn [negb].
  set (rest := match t with PathTrailer p => "/" ++ p | _ => "" end).
  change (strip_leading_slashes ("/" ++ "" ++ id ++ rest))
    with (drop_while (is_char "/") (id ++ rest)).
  rewrite (drop_while_head _ id rest Ne (all_chars_impl _ _ _ id_char_no_solidus I)).
  subst rest. destruct (split_id_then id t I) as [more ->].
  cbn [hd]. rewrite Ne. reflexivity.
Qed.

Lemma short_link_trailer_dropped_witness :
  "abc123" <> "" /\ all_chars is_id_char "abc123" = true /\
  plain_trailer (QueryTrailer "t=42&si=Zx9") = true /\
  cleanYouTubeUrl "https://youtu.be/abc123?t=42&si=Zx9" =
  Some (Ok "https://www.youtube.com/watch?v=abc123" video).
Proof.
  split; [discriminate|]. split; [reflexivity|]. split; [reflexivity|].
  apply (short_link_trailer_dropped "abc123" (QueryTrailer "t=42&si=Zx9"));
    [discriminate | reflexivity | reflexivity].
Defined.

(** X4. Whatever [cleanYouTubeUrl] accepts was a URL on a host of the
    allow-list, and what it returns is always on [www.youtube.com]: the
    canonical watch URL of a non-empty id with kind video, or the canonical
    shorts URL of a non-empty id with kind short. *)
Theorem accepted_is_canonical (x url : string) (k : kind) :
  cleanYouTubeUrl x = Some (Ok url k) ->
  (exists u, URL.parse x = URL.Parsed u /\
             In (toLowerCase (URL.hostname u)) allowed) /\
  exists id, id <> "" /\ url = canonical k id.
Proof.
  intro H. split.
  - unfold cleanYouTubeUrl in H.
    destruct (URL.parse x) as [u| |]; try discriminate.
    exists u. split; [reflexivity|].
    injection H as H. unfold clean_parsed in H.
    destruct (existsb _ allowed) eqn:E; [|discriminate H].
    apply existsb_exists in E as [h [I E]].
    apply String.eqb_eq in E. subst h. exact I.
  - destruct (clean_shape x url k H) as [id [Ne E]].
    exists id. split; [|exact E]. intros ->. discriminate Ne.
Qed.

Lemma accepted_is_canonical_witness :
  cleanYouTubeUrl "HTTP://M.YouTube.com/watch?t=1&v=a%20b" =
    Some (Ok "https://www.youtube.com/watch?v=a b" video) /\
  exists id, id <> "" /\ "https://www.youtube.com/watch?v=a b" = canonical video id.
Proof.
  split; [reflexivity|].
  apply (accepted_is_canonical "HTTP://M.YouTube.com/watch?t=1&v=a%20b"). reflexivity.
Defined.

Lemma startsWith_app (a p : string) :
  startsWith a p = true -> exists b, p = a ++ b.
Proof.
  revert p. induction a as [|x a IH]; intros p H.
  - exists p. reflexivity.
  - destruct p as [|y p]; [discriminate|]. cbn in H.
    apply andb_true_iff in H as [E H]. apply Ascii.eqb_eq in E. subst y.
    destruct (IH p H) as [b ->]. exists b. reflexivity.
Qed.

Lemma In_tl {A : Type} (x : A) (l : list A) : In x (tl l) -> In x l.
Proof. destruct l; [exact (fun H => H) | right; assumption]. Qed.

(** A [/shorts/] inside a path leaves a segment [shorts] after the first. *)
Lemma shorts_segment_after_first (p : string) :
  includes "/shorts/" p = true -> In "shorts" (tl (split "/" p)).
Proof.
  unfold split. induction p as [|c p IH]; [discriminate|].
  cbn [includes]. intro H. apply orb_true_iff in H as [H|H].
  - apply startsWith_app in H as [b ->]. left. reflexivity.
  - specialize (IH H). cbn [split_on].
    destruct (is_char "/" c).
    + apply In_tl, IH.
    + destruct (split_on (is_char "/") p) as [|x xs]; [destruct IH | exact IH].
Qed.

Lemma indexOf_In (x : string) (l : list string) :
  In x l -> indexOf x l <> None.
Proof.
  induction l as [|y l IH]; [intros []|]. intros [->|H]; cbn.
  - rewrite String.eqb_refl. discriminate.
  - destruct (String.eqb y x); [discriminate|].
    destruct (indexOf x l); [discriminate | exact (IH H)].
Qed.

(** X5. The test [idx === -1] of line 92 never fires: when the path
    includes [/shorts/], [shorts] is one of its non-empty segments, so
    "Invalid shorts URL." is only ever returned because nothing follows
    that segment. *)
Theorem shorts_index_always_found (path : string) :
  includes "/shorts/" path = true ->
  indexOf "shorts" (filter (fun p => negb (is_empty p)) (split "/" path)) <> None.
Proof.
  intro H. apply indexOf_In, filter_In. split; [|reflexivity].
  apply In_tl, shorts_segment_after_first, H.
Qed.

Lemma shorts_index_always_found_witness :
  includes "/shorts/" "/a/shorts/" = true /\
  indexOf "shorts" (filter (fun p => negb (is_empty p)) (split "/" "/a/shorts/"))
    <> None.
Proof.
  split; [reflexivity|]. apply (shorts_index_always_found "/a/shorts/"). reflexivity.
Defined.

(** ** More of the polling *)

Lemma status_two (d : payload) (a b : string) :
  a <> b -> status_is d a = true -> status_is d b = false.
Proof.
  unfold status_is. destruct (p_status d) as [x|]; [|discriminate].
  intros N A. apply String.eqb_eq in A. subst x.
  apply String.eqb_neq, N.
Qed.

Lemma clear_timer_keeps (h : option nat) (s : state) :
  currentJobId (clear_timer h s) = currentJobId s /\
  currentCleanUrl (clear_timer h s) = currentCleanUrl s /\
  pollTimer (clear_timer h s) = pollTimer s /\
  loader (clear_timer h s) = loader s /\
  toasts (clear_timer h s) = toasts s /\
  dom (clear_timer h s) = dom s.
Proof. destruct h; repeat split; reflexivity. Qed.

Ltac job_fields :=
  cbn [currentJobId currentCleanUrl pollTimer loader pending toasts timers
       on_dom with_dom showToast with_toasts];
  repeat match goal with
  | |- context [clear_timer ?h ?x] =>
      let K := fresh "K" in
      let K' := fresh "K" in
      pose proof (clear_timer_keeps h x) as K;
      pose proof (pending_clear_timer h x) as K';
      cbn [currentJobId currentCleanUrl pollTimer loader pending toasts timers
           on_dom with_dom showToast with_toasts] in K, K';
      destruct K as (? & ? & ? & ? & ? & ?);
      generalize dependent (clear_timer h x); intros
  end.

(** X6. [poll] never touches the job: whatever the outcome, the job id,
    the retained URL, the handle in [pollTimer] and the loader are as
    before, and no request is issued.  An outcome that does not stop the
    polling (an [ok] answer with any status but finished, expired,
    cancelled and error, known or not) also leaves every timer live and
    shows no toast. *)
Theorem poll_keeps_job (r : reply payload) (s : state) :
  (currentJobId (poll_reply r s) = currentJobId s /\
   currentCleanUrl (poll_reply r s) = currentCleanUrl s /\
   pollTimer (poll_reply r s) = pollTimer s /\
   loader (poll_reply r s) = loader s /\
   pending (poll_reply r s) = pending s) /\
  (stops_polling r = false ->
   timers (poll_reply r s) = timers s /\ toasts (poll_reply r s) = toasts s).
Proof.
  assert (forall m,
    currentJobId (poll_catch m s) = currentJobId s /\
    currentCleanUrl (poll_catch m s) = currentCleanUrl s /\
    pollTimer (poll_catch m s) = pollTimer s /\
    loader (poll_catch m s) = loader s /\
    pending (poll_catch m s) = pending s) as C.
  { intro m. unfold poll_catch, clearInterval. job_fields.
    repeat split; try assumption. }
  unfold poll_reply, stops_polling.
  destruct r as [m|d]; [split; [apply C | discriminate]|].
  destruct (p_ok d); cbn [negb orb existsb]; [|split; [apply C | discriminate]].
  unfold poll_apply, clearInterval.
  set (s1 := match p_started_at_ist d with Some _ => _ | None => _ end).
  set (s2 := match p_status d with Some _ => _ | None => _ end).
  set (s3 := match p_expires_at_ist d with Some _ => _ | None => _ end).
  assert (currentJobId s3 = currentJobId s /\ currentCleanUrl s3 = currentCleanUrl s /\
          pollTimer s3 = pollTimer s /\ loader s3 = loader s /\
          pending s3 = pending s /\ timers s3 = timers s /\ toasts s3 = toasts s)
    as (J & U & P & L & Q & T & O).
  { subst s3 s2 s1.
    destruct (p_started_at_ist d) as [t|]; [destruct (is_empty t)|];
    (destruct (p_status d) as [st|];
       [destruct (negb (is_empty st) && negb (toLowerCase st =? "queued")%string)|]);
    (destruct (p_expires_at_ist d) as [e|];
       [destruct (negb (is_empty e) && _)|]);
    repeat split; reflexivity. }
  clearbody s3. clear s1 s2.
  destruct (status_is d "finished"), (status_is d "expired"),
    (status_is d "cancelled"), (status_is d "error");
    cbn [orb]; job_fields;
    (split; [repeat split; try congruence | try discriminate]);
    intros _; split; assumption.
Qed.

Lemma poll_keeps_job_witness :
  stops_polling (Answer (progress_of "merging" 50)) = false /\
  timers (poll_reply (Answer (progress_of "merging" 50)) init) = timers init /\
  toasts (poll_reply (Answer (progress_of "merging" 50)) init) = toasts init.
Proof.
  split; [reflexivity|].
  apply (poll_keeps_job (Answer (progress_of "merging" 50)) init). reflexivity.
Defined.

(** X7. Every outcome that stops the polling leaves the user a next step
    on the page: after an [ok] answer that says cancelled the cancelled
    block is shown and the progress block hidden; after
    every other stopping outcome the New button is shown and the Cancel
    button hidden. *)
Theorem stopping_offers_next_step (r : reply payload) (s : state) :
  stops_polling r = true ->
  let d := dom (poll_reply r s) in
  if says_cancelled r
  then hidden d cancelBlock = false /\ hidden d progressBlock = true
  else hidden d newBtnTop = false /\ hidden d cancelBtn = true.
Proof.
  intro St. cbv zeta. unfold says_cancelled, poll_reply, poll_catch.
  destruct r as [m|d]; [split; reflexivity|].
  cbn in St. destruct (p_ok d); cbn [andb negb orb] in *; [|split; reflexivity].
  unfold poll_apply.
  destruct (status_is d "finished") eqn:F.
  { rewrite (status_two d "finished" "cancelled" ltac:(discriminate) F).
    destruct (falsy (p_download_url d)); split; reflexivity. }
  destruct (status_is d "expired") eqn:E.
  { rewrite (status_two d "expired" "cancelled" ltac:(discriminate) E).
    split; reflexivity. }
  destruct (status_is d "cancelled") eqn:C; [split; reflexivity|].
  destruct (status_is d "error") eqn:R; [split; reflexivity|].
  discriminate St.
Qed.

Lemma stopping_offers_next_step_witness :
  stops_polling (Failed "Failed to fetch") = true /\
  hidden (dom (poll_reply (Failed "Failed to fetch") init)) newBtnTop = false /\
  hidden (dom (poll_reply (Failed "Failed to fetch") init)) cancelBtn = true.
Proof.
  split; [reflexivity|].
  apply (stopping_offers_next_step (Failed "Failed to fetch") init). reflexivity.
Defined.

(** ** More of the submit handler *)

(** X8. A text the validator refuses is never sent: the submit handler
    issues no request and creates no timer, shows the validator's message
    as an error toast and enables the button again.  The page has been
    reset all the same, and with it the job id: a job that was running is
    dropped from the page. *)
Theorem refused_text_sends_nothing (raw e : string) (s : state) :
  ready_with raw s ->
  cleanYouTubeUrl (trim raw) = Some (Err e) ->
  exists s',
    submit s = Some s' /\
    pending s' = pending s /\ timers s' = timers s /\
    toasts s' = (toasts s ++ [(error, e)])%list /\
    startBtn_disabled (dom s') = false /\
    currentJobId s' = None /\
    currentCleanUrl s' = currentCleanUrl s /\
    pollTimer s' = pollTimer s.
Proof.
  intros [D V] C. unfold submit. rewrite D.
  change (urlInput_value (dom (on_dom (with_startBtn_disabled true) (resetUI s))))
    with (urlInput_value (dom s)).
  rewrite V, C. eexists. split; [reflexivity|]. repeat split; reflexivity.
Qed.

Lemma refused_text_sends_nothing_witness :
  exists s s',
    after (first_job_polling ++ [TypeUrl " https://vimeo.com/12345 "])%list = Some s /\
    ready_with " https://vimeo.com/12345 " s /\
    currentJobId s = Some "job-1" /\
    submit s = Some s' /\
    pending s' = pending s /\ currentJobId s' = None /\
    toasts s' = (toasts s ++ [(error, "Only YouTube URLs are supported.")])%list.
Proof.
  destruct (after (first_job_polling ++ [TypeUrl " https://vimeo.com/12345 "])%list)
    as [s|] eqn:E; [|vm_compute in E; discriminate E].
  assert (ready_with " https://vimeo.com/12345 " s /\ currentJobId s = Some "job-1")
    as [R J].
  { vm_compute in E. injection E as <-. repeat split; reflexivity. }
  destruct (refused_text_sends_nothing " https://vimeo.com/12345 "
              "Only YouTube URLs are supported." s R eq_refl)
    as [s' [S [P [_ [T [_ [N _]]]]]]].
  exists s, s'. split; [reflexivity|]. split; [exact R|].
  repeat split; assumption.
Defined.

(** ** More of the loader *)

Lemma find_cleared (id : nat) (l : list timer) :
  find (fun t => Nat.eqb (t_id t) id)
       (filter (fun t => negb (Nat.eqb (t_id t) id)) l) = None.
Proof.
  induction l as [|t l IH]; cbn; [reflexivity|].
  destruct (t_id t =? id)%nat eqn:E; cbn; [exact IH|].
  rewrite E. exact IH.
Qed.

Lemma timers_after_arm (s : state) :
  timers (loader_arm s) = (timers s ++ [arm_timeout s])%list /\
  timeoutId (loader (loader_arm s)) = Some (next_timer s).
Proof.
  unfold loader_arm. destruct (need (loader s) =? 0)%nat; split; reflexivity.
Qed.

(** X9. The fallback timeout of [arm()] is cancelled by the loader's own
    [reset()], and by nothing else: after [clearForNew] (the New buttons)
    has emptied and hidden the preview, the timeout is still live, and when
    it fires it shows the emptied preview again. *)
Theorem reset_cancels_timeout_new_does_not (s : state) :
  fresh_handles s ->
  fire (next_timer s) (loader_reset (loader_arm s)) = None /\
  hidden (dom (clearForNew (loader_arm s))) preview = true /\
  text (dom (clearForNew (loader_arm s))) titleEl = "" /\
  exists s', fire (next_timer s) (clearForNew (loader_arm s)) = Some s' /\
             revealed s'.
Proof.
  intro F. destruct (timers_after_arm s) as [T I].
  split; [|split; [reflexivity | split; [reflexivity|]]].
  - unfold fire, loader_reset, clearTimeout, clear_timer.
    cbn [loader with_loader timeoutId]. rewrite I. cbn [timers with_timers].
    rewrite find_cleared. reflexivity.
  - unfold fire.
    change (timers (clearForNew (loader_arm s))) with (timers (loader_arm s)).
    rewrite T, (find_fresh (next_timer s) (timers s) (arm_timeout s) [] F eq_refl).
    cbn [t_repeat t_run arm_timeout]. eexists. split; [reflexivity|].
    apply reveal_revealed.
Qed.

Lemma reset_cancels_timeout_new_does_not_witness :
  fresh_handles init /\
  fire 1 (loader_reset (loader_arm init)) = None /\
  exists s', fire 1 (clearForNew (loader_arm init)) = Some s' /\ revealed s'.
Proof.
  assert (fresh_handles init) as F by constructor.
  split; [exact F|].
  destruct (reset_cancels_timeout_new_does_not init F) as [R [_ [_ W]]].
  split; [exact R | exact W].
Defined.

(** X10. [mark()] reveals nothing before [arm()] and nothing while images
    are still awaited: it only counts.  Once armed, with the count at or
    past [need], it schedules a reveal 60 ms later, and firing that timer
    shows the preview. *)
Theorem mark_reveals_when_armed_and_done (s : state) :
  (armed (loader s) = false \/ (S (done (loader s)) < need (loader s))%nat ->
   timers (loader_mark s) = timers s /\ dom (loader_mark s) = dom s /\
   done (loader (loader_mark s)) = S (done (loader s))) /\
  (fresh_handles s ->
   armed (loader s) = true -> (need (loader s) <= S (done (loader s)))%nat ->
   In {| t_id := next_timer s; t_repeat := false; t_delay := 60; t_run := Reveal |}
      (timers (loader_mark s)) /\
   exists s', fire (next_timer s) (loader_mark s) = Some s' /\ revealed s').
Proof.
  unfold loader_mark. split.
  - intros [A|L].
    + rewrite A. repeat split; reflexivity.
    + replace (need (loader s) <=? S (done (loader s)))%nat with false
        by (symmetry; apply Nat.leb_gt, L).
      rewrite andb_false_r. repeat split; reflexivity.
  - intros F A L. rewrite A. apply Nat.leb_le in L. rewrite L. cbn [andb].
    split.
    + cbn. apply in_or_app. right. left. reflexivity.
    + unfold fire.
      match goal with
      | |- context [find _ (timers ?x)] =>
          change (timers x)
            with (timers s ++ [{| t_id := next_timer s; t_repeat := false;
                                  t_delay := 60; t_run := Reveal |}])%list
      end.
      rewrite (find_fresh (next_timer s) (timers s)
                 {| t_id := next_timer s; t_repeat := false;
                    t_delay := 60; t_run := Reveal |} [] F eq_refl).
      cbn [t_repeat t_run]. eexists. split; [reflexivity|]. apply reveal_revealed.
Qed.

Lemma mark_reveals_when_armed_and_done_witness :
  fresh_handles (loader_arm (loader_add init)) /\
  armed (loader (loader_arm (loader_add init))) = true /\
  (need (loader (loader_arm (loader_add init)))
     <= S (done (loader (loader_arm (loader_add init)))))%nat /\
  exists s', fire 2 (loader_mark (loader_arm (loader_add init))) = Some s' /\
             revealed s'.
Proof.
  assert (fresh_handles (loader_arm (loader_add init))) as F
    by (repeat constructor).
  split; [exact F|]. split; [reflexivity|]. split; [cbn; lia|].
  destruct (mark_reveals_when_armed_and_done (loader_arm (loader_add init)))
    as [_ M].
  apply M; [exact F | reflexivity | cbn; lia].
Defined.

(** ** More of the rendering *)







(** ** More of the subscriber counts *)

Lemma Qle_bool_above (z : Z) (q : Q) :
  (q < 1)%Q -> 1 <= z -> Qle_bool (inject_Z z) q = false.
Proof.
  intros L Z. destruct (Qle_bool (inject_Z z) q) eqn:E; [|reflexivity].
  apply Qle_bool_iff in E.
  assert (inject_Z 1 <= inject_Z z)%Q as I by (rewrite <- Zle_Qle; exact Z).
  change (inject_Z 1) with 1%Q in I. lra.
Qed.

(** X13. A count below 1 (zero, a negative or a fractional value) and NaN
    match no unit: they are printed as the number itself and
    " subscribers", without a letter. *)
Theorem formatSubs_below_one (q : Q) :
  (q < 1)%Q ->
  formatSubs (Fin q) = toString (Fin q) ++ " subscribers" /\
  formatSubs NaN = "NaN subscribers".
Proof.
  intro L. split; [|reflexivity].
  unfold formatSubs, units. cbn [rev app formatSubs_loop ge of_Z].
  rewrite !(Qle_bool_above _ q L) by lia. reflexivity.
Qed.

Lemma formatSubs_below_one_witness :
  (0 < 1)%Q /\ formatSubs (of_Z 0) = "0 subscribers".
Proof.
  split; [reflexivity|]. apply (formatSubs_below_one 0). reflexivity.
Defined.

(** X14. Just below a million the count is rounded up inside the K unit
    and not moved to the M unit: every whole count from 999500 to 999999
    is printed as "1000K subscribers". *)
Theorem formatSubs_just_below_million (n : Z) :
  999500 <= n < 1000000 ->
  formatSubs (of_Z n) = "1000K subscribers".
Proof.
  intro H. apply String.eqb_eq.
  apply (forall_Zrange
           (fun n => String.eqb (formatSubs (of_Z n)) "1000K subscribers")
           999500 500).
  - vm_compute. reflexivity.
  - lia.
Qed.

Lemma formatSubs_just_below_million_witness :
  999500 <= 999999 < 1000000 /\ formatSubs (of_Z 999999) = "1000K subscribers".
Proof.
  split; [lia|]. apply (formatSubs_just_below_million 999999). lia.
Defined.

(** ** Invariants of the page *)




(** *** The loader awaits one image at most *)






(** *** The timers of the script *)







(** *** One submission at a time *)









(** *** Only canonical URLs are sent *)










(** ** Starting and restarting a job *)

Lemma started_shape (h : start_handler) (a : start_json) (s : state) :
  st_ok a = true ->
  let s' := handle_start h (Answer a) s in
  currentJobId s' = st_job_id a /\
  pollTimer s' = Some (next_timer s) /\
  timers s' = (timers s ++ [poll_interval s])%list /\
  pending s' = pending s /\
  exists m, toasts s' = (toasts s ++ [(info, m)])%list.
Proof.
  intros O. destruct h; cbn [handle_start]; unfold start_reply, retry_reply;
    cbn [start_failure]; rewrite O; cbn; repeat split; eexists; reflexivity.
Qed.

Lemma fire_poll_interval (s s' : state) :
  fresh_handles s ->
  timers s' = (timers s ++ [poll_interval s])%list ->
  fire (next_timer s) s' = Some (poll (next_timer s) s').
Proof.
  intros F T. unfold fire. rewrite T.
  rewrite (find_fresh (next_timer s) (timers s) (poll_interval s) [] F eq_refl).
  reflexivity.
Qed.

Lemma live_poll_interval (s s' : state) :
  timers s' = (timers s ++ [poll_interval s])%list ->
  live (next_timer s) s' = true.
Proof.
  intros T. unfold live. rewrite T, existsb_app. cbn.
  rewrite Nat.eqb_refl. apply orb_true_iff. right. reflexivity.
Qed.

(** X19. A start that succeeds, from the submit flow or from the retry
    button, installs the polling: the job id of the answer becomes the
    current one, [pollTimer] names a new interval of 900 ms, and each tick
    of that interval requests the progress of that job and leaves the
    interval live. *)
Theorem started_job_is_polled (h : start_handler) (a : start_json) (j : string)
        (s : state) :
  fresh_handles s ->
  st_ok a = true -> st_job_id a = Some j -> is_empty j = false ->
  let s' := handle_start h (Answer a) s in
  currentJobId s' = Some j /\
  pollTimer s' = Some (next_timer s) /\
  timers s' = (timers s ++ [poll_interval s])%list /\
  exists s'',
    fire (next_timer s) s' = Some s'' /\
    pending s'' = (pending s ++ [ReqProgress j (next_timer s)])%list /\
    live (next_timer s) s'' = true.
Proof.
  intros F O J E s'.
  destruct (started_shape h a s O) as (Cj & Pt & T & P & _). fold s' in Cj, Pt, T, P.
  rewrite J in Cj.
  split; [exact Cj|]. split; [exact Pt|]. split; [exact T|].
  exists (poll (next_timer s) s'). split; [exact (fire_poll_interval s s' F T)|].
  unfold poll. rewrite Cj, E. unfold fetch. cbn [pending with_pending]. rewrite P.
  split; [reflexivity|].
  apply live_poll_interval. exact T.
Qed.

Lemma started_job_is_polled_witness :
  exists s s'',
    after [TypeUrl "https://youtu.be/first"; Submit; ProbeReply probe_ok] = Some s /\
    fresh_handles s /\
    fire (next_timer s)
         (handle_start OfSubmit (started "job-1") s) = Some s'' /\
    pending s'' = (pending s ++ [ReqProgress "job-1" (next_timer s)])%list.
Proof.
  destruct (after [TypeUrl "https://youtu.be/first"; Submit; ProbeReply probe_ok])
    as [s|] eqn:E; [|vm_compute in E; discriminate E].
  assert (fresh_handles s) as F by (exact (fresh_reachable _ s E)).
  destruct (started_job_is_polled OfSubmit
              {| st_ok := true; st_job_id := Some "job-1"; st_error := None |}
              "job-1" s F eq_refl eq_refl eq_refl) as (_ & _ & _ & s'' & Fi & P & _).
  exists s, s''. split; [reflexivity|]. split; [exact F|]. split; [exact Fi | exact P].
Defined.

(** X20. An answer [ok] that carries no job id (the field missing or
    empty) is taken for a start all the same: the user is told the download
    has started and the interval is installed, but [poll] returns at its
    guard, so every tick leaves the state as it is: nothing is requested,
    nothing is shown, and nothing ever stops the interval. *)
Theorem start_without_job_id_never_polls (h : start_handler) (a : start_json)
        (s : state) :
  fresh_handles s ->
  st_ok a = true -> falsy (st_job_id a) = true ->
  let s' := handle_start h (Answer a) s in
  (exists m, toasts s' = (toasts s ++ [(info, m)])%list) /\
  live (next_timer s) s' = true /\
  forall n, run s' (repeat (Fire (next_timer s)) n) = Some s'.
Proof.
  intros F O J s'.
  destruct (started_shape h a s O) as (Cj & _ & T & _ & M). fold s' in Cj, T, M.
  split; [exact M|]. split; [exact (live_poll_interval s s' T)|].
  assert (fire (next_timer s) s' = Some s') as Fi.
  { rewrite (fire_poll_interval s s' F T). unfold poll. rewrite Cj.
    unfold falsy in J. destruct (st_job_id a) as [j|]; [rewrite J|]; reflexivity. }
  induction n as [|n IH]; [reflexivity|].
  cbn [repeat run step]. rewrite Fi. exact IH.
Qed.

Lemma start_without_job_id_never_polls_witness :
  fresh_handles init /\
  run (handle_start OfRetry
         (Answer {| st_ok := true; st_job_id := None; st_error := None |}) init)
      (repeat (Fire (next_timer init)) 3) =
  Some (handle_start OfRetry
          (Answer {| st_ok := true; st_job_id := None; st_error := None |}) init).
Proof.
  assert (fresh_handles init) as F by (exact (fresh_reachable [] init eq_refl)).
  split; [exact F|].
  destruct (start_without_job_id_never_polls OfRetry
              {| st_ok := true; st_job_id := None; st_error := None |}
              init F eq_refl eq_refl) as (_ & _ & R).
  exact (R 3%nat).
Defined.

(** X21. A start that fails (the transport, or an answer that is not
    [ok]), in the submit flow or after the retry button, changes nothing of
    the job: the job id, [pollTimer], the timers and the requests in flight
    are as before, the progress skeleton is hidden and the failure is shown
    as one error toast, with the handler's own fallback text when the
    answer carries none. *)
Theorem failed_start_keeps_job (h : start_handler) (r : reply start_json)
        (m : string) (s : state) :
  start_failure (fallback_of h) r = Some m ->
  let s' := handle_start h r s in
  currentJobId s' = currentJobId s /\
  currentCleanUrl s' = currentCleanUrl s /\
  pollTimer s' = pollTimer s /\
  timers s' = timers s /\
  pending s' = pending s /\
  toasts s' = (toasts s ++ [(error, m)])%list /\
  hidden (dom s') progressSkel = true.
Proof.
  intros E. destruct h; cbn [handle_start fallback_of] in *;
    unfold start_reply, retry_reply; rewrite E; cbn; repeat split; reflexivity.
Qed.

Lemma failed_start_keeps_job_witness :
  start_failure (fallback_of OfRetry)
    (Answer {| st_ok := false; st_job_id := None; st_error := None |}) =
    Some "Failed to restart download" /\
  toasts (handle_start OfRetry
            (Answer {| st_ok := false; st_job_id := None; st_error := None |}) init) =
    [(error, "Failed to restart download")].
Proof.
  split; [reflexivity|].
  destruct (failed_start_keeps_job OfRetry
              (Answer {| st_ok := false; st_job_id := None; st_error := None |})
              "Failed to restart download" init eq_refl) as (_ & _ & _ & _ & _ & T & _).
  exact T.
Defined.

(** X22. The retry button hides the cancelled block before it asks, and a
    retry that fails does not bring it back: the block and the progress
    skeleton are both hidden then, while the URL is still retained. *)
Theorem failed_retry_leaves_block_hidden (r : reply start_json) (m : string)
        (s : state) :
  falsy (currentCleanUrl s) = false ->
  start_failure "Failed to restart download" r = Some m ->
  let s' := retry_reply r (retry_click s) in
  hidden (dom s') cancelBlock = true /\
  hidden (dom s') progressSkel = true /\
  currentCleanUrl s' = currentCleanUrl s.
Proof.
  intros U E. unfold retry_reply, retry_click. rewrite E, U. cbn.
  repeat split; reflexivity.
Qed.

Lemma failed_retry_leaves_block_hidden_witness :
  exists s,
    after [TypeUrl "https://youtu.be/first"; Submit] = Some s /\
    falsy (currentCleanUrl s) = false /\
    hidden (dom (retry_reply (Failed "Failed to fetch") (retry_click s)))
           cancelBlock = true.
Proof.
  destruct (after [TypeUrl "https://youtu.be/first"; Submit])
    as [s|] eqn:E; [|vm_compute in E; discriminate E].
  assert (falsy (currentCleanUrl s) = false) as U
    by (vm_compute in E; injection E as <-; reflexivity).
  exists s. split; [reflexivity|]. split; [exact U|].
  destruct (failed_retry_leaves_block_hidden (Failed "Failed to fetch")
              "Failed to fetch" s U eq_refl) as (C & _).
  exact C.
Defined.

(** ** The preview *)
















